(** * hwui: the deferred layer updater and the Java paint-flag shim

    A shallow embedding of two files of [libs/hwui]:

    - [hwui/PaintImpl.cpp]: [android::Paint], its [operator==], [setShader]
      and the legacy Java flag word ([getJavaFlags] / [setJavaFlags]);
    - [DeferredLayerUpdater.h]: the inline members of
      [android::uirenderer::DeferredLayerUpdater] ([setSize], [setBlend],
      [updateTexImage], [setTransform], [getTransform]).

    The members that the header only declares ([updateLayer],
    [detachSurfaceTexture], [destroyLayer], [onContextDestroyed] and the
    three members of [ImageSlot]) have their bodies in
    [DeferredLayerUpdater.cpp]; they are modelled from the design document
    in the last part of the file, each marked as such. *)

From Stdlib Require Import ZArith Lia Bool List String Floats.
From stdpp Require Import base option list gmap.

Local Open Scope Z_scope.

(** Raw pointers and [sk_sp<T>] smart pointers are compared by address in
    the code; a pointer is an address or null. *)
Definition ptr := option positive.

Definition ptr_eqb (p q : ptr) : bool :=
  match p, q with
  | Some a, Some b => Pos.eqb a b
  | None, None => true
  | _, _ => false
  end.

(** * Part 1: hwui/PaintImpl.cpp *)

Module Paint.

(** ** The Skia objects the file reads and writes

    [SkPaint] and [SkFont] belong to Skia.  The file reaches them through
    getters and setters only; each pair is a field of the records below,
    and a setter writes its field and no other. *)

Inductive SkFilterQuality :=
  | kNone_SkFilterQuality
  | kLow_SkFilterQuality
  | kMedium_SkFilterQuality
  | kHigh_SkFilterQuality.

Definition SkFilterQuality_eqb (a b : SkFilterQuality) : bool :=
  match a, b with
  | kNone_SkFilterQuality, kNone_SkFilterQuality
  | kLow_SkFilterQuality, kLow_SkFilterQuality
  | kMedium_SkFilterQuality, kMedium_SkFilterQuality
  | kHigh_SkFilterQuality, kHigh_SkFilterQuality => true
  | _, _ => false
  end.

Record SkPaint := mkSkPaint {
  isAntiAlias : bool;
  isDither : bool;
  getFilterQuality : SkFilterQuality;
  getShader : ptr;        (* sk_sp<SkShader> *)
  getImageFilter : ptr    (* sk_sp<SkImageFilter> *)
}.

Definition SkPaint_setAntiAlias (aa : bool) (p : SkPaint) : SkPaint :=
  mkSkPaint aa (isDither p) (getFilterQuality p) (getShader p) (getImageFilter p).
Definition SkPaint_setDither (d : bool) (p : SkPaint) : SkPaint :=
  mkSkPaint (isAntiAlias p) d (getFilterQuality p) (getShader p) (getImageFilter p).
Definition SkPaint_setFilterQuality (q : SkFilterQuality) (p : SkPaint) : SkPaint :=
  mkSkPaint (isAntiAlias p) (isDither p) q (getShader p) (getImageFilter p).
Definition SkPaint_setShader (s : ptr) (p : SkPaint) : SkPaint :=
  mkSkPaint (isAntiAlias p) (isDither p) (getFilterQuality p) s (getImageFilter p).
Definition SkPaint_setImageFilter (f : ptr) (p : SkPaint) : SkPaint :=
  mkSkPaint (isAntiAlias p) (isDither p) (getFilterQuality p) (getShader p) f.

(** [SkPaint()]: no anti-aliasing, no dither, no filtering, no effects. *)
Definition SkPaint_default : SkPaint :=
  mkSkPaint false false kNone_SkFilterQuality None None.

Definition SkPaint_eqb (a b : SkPaint) : bool :=
  Bool.eqb (isAntiAlias a) (isAntiAlias b) &&
  Bool.eqb (isDither a) (isDither b) &&
  SkFilterQuality_eqb (getFilterQuality a) (getFilterQuality b) &&
  ptr_eqb (getShader a) (getShader b) &&
  ptr_eqb (getImageFilter a) (getImageFilter b).

Inductive Edging := kAlias | kAntiAlias | kSubpixelAntiAlias.

Definition Edging_eqb (a b : Edging) : bool :=
  match a, b with
  | kAlias, kAlias | kAntiAlias, kAntiAlias
  | kSubpixelAntiAlias, kSubpixelAntiAlias => true
  | _, _ => false
  end.

Record SkFont := mkSkFont {
  isEmbolden : bool;
  isLinearMetrics : bool;
  isSubpixel : bool;
  isEmbeddedBitmaps : bool;
  isForceAutoHinting : bool;
  getEdging : Edging
}.

Definition SkFont_setEmbolden (b : bool) (f : SkFont) : SkFont :=
  mkSkFont b (isLinearMetrics f) (isSubpixel f) (isEmbeddedBitmaps f)
           (isForceAutoHinting f) (getEdging f).
Definition SkFont_setLinearMetrics (b : bool) (f : SkFont) : SkFont :=
  mkSkFont (isEmbolden f) b (isSubpixel f) (isEmbeddedBitmaps f)
           (isForceAutoHinting f) (getEdging f).
Definition SkFont_setSubpixel (b : bool) (f : SkFont) : SkFont :=
  mkSkFont (isEmbolden f) (isLinearMetrics f) b (isEmbeddedBitmaps f)
           (isForceAutoHinting f) (getEdging f).
Definition SkFont_setEmbeddedBitmaps (b : bool) (f : SkFont) : SkFont :=
  mkSkFont (isEmbolden f) (isLinearMetrics f) (isSubpixel f) b
           (isForceAutoHinting f) (getEdging f).
Definition SkFont_setForceAutoHinting (b : bool) (f : SkFont) : SkFont :=
  mkSkFont (isEmbolden f) (isLinearMetrics f) (isSubpixel f)
           (isEmbeddedBitmaps f) b (getEdging f).
Definition SkFont_setEdging (e : Edging) (f : SkFont) : SkFont :=
  mkSkFont (isEmbolden f) (isLinearMetrics f) (isSubpixel f)
           (isEmbeddedBitmaps f) (isForceAutoHinting f) e.

(** [SkFont()]: edging defaults to [kAntiAlias], as the constructor of
    [Paint] remarks. *)
Definition SkFont_default : SkFont :=
  mkSkFont false false false false false kAntiAlias.

Definition SkFont_eqb (a b : SkFont) : bool :=
  Bool.eqb (isEmbolden a) (isEmbolden b) &&
  Bool.eqb (isLinearMetrics a) (isLinearMetrics b) &&
  Bool.eqb (isSubpixel a) (isSubpixel b) &&
  Bool.eqb (isEmbeddedBitmaps a) (isEmbeddedBitmaps b) &&
  Bool.eqb (isForceAutoHinting a) (isForceAutoHinting b) &&
  Edging_eqb (getEdging a) (getEdging b).

(** ** [android::Paint]

    The fields are the ones the copy constructor lists; their types are
    declared in [Paint.h]: two [float]s, a [std::string], two [uint32_t]s,
    two enums, three [bool]s and four pointers. *)

Inductive FamilyVariant := DEFAULT | COMPACT | ELEGANT.

Definition FamilyVariant_eqb (a b : FamilyVariant) : bool :=
  match a, b with
  | DEFAULT, DEFAULT | COMPACT, COMPACT | ELEGANT, ELEGANT => true
  | _, _ => false
  end.

Inductive Align := kLeft_Align | kCenter_Align | kRight_Align.

Definition Align_eqb (a b : Align) : bool :=
  match a, b with
  | kLeft_Align, kLeft_Align | kCenter_Align, kCenter_Align
  | kRight_Align, kRight_Align => true
  | _, _ => false
  end.

(** [uirenderer::Shader]: an object that offers itself either as an
    [SkShader] or as an [SkImageFilter]. *)
Record Shader := mkShader {
  asSkShader : ptr;
  asSkImageFilter : ptr
}.

Record Paint := mkPaint {
  base : SkPaint;                 (* the SkPaint base sub-object *)
  mFont : SkFont;
  mLooper : ptr;                  (* sk_sp<BlurDrawLooper> *)
  mLetterSpacing : float;
  mWordSpacing : float;
  mFontFeatureSettings : string;
  mMinikinLocaleListId : Z;
  mFamilyVariant : FamilyVariant;
  mHyphenEdit : Z;
  mTypeface : ptr;                (* const Typeface* *)
  mAlign : Align;
  mStrikeThru : bool;
  mUnderline : bool;
  mDevKern : bool;
  mShader : option (positive * Shader)   (* sk_sp<uirenderer::Shader>: address and object *)
}.

Definition with_base (b : SkPaint) (p : Paint) : Paint :=
  mkPaint b (mFont p) (mLooper p) (mLetterSpacing p) (mWordSpacing p)
    (mFontFeatureSettings p) (mMinikinLocaleListId p) (mFamilyVariant p)
    (mHyphenEdit p) (mTypeface p) (mAlign p) (mStrikeThru p) (mUnderline p)
    (mDevKern p) (mShader p).

Definition with_mFont (f : SkFont) (p : Paint) : Paint :=
  mkPaint (base p) f (mLooper p) (mLetterSpacing p) (mWordSpacing p)
    (mFontFeatureSettings p) (mMinikinLocaleListId p) (mFamilyVariant p)
    (mHyphenEdit p) (mTypeface p) (mAlign p) (mStrikeThru p) (mUnderline p)
    (mDevKern p) (mShader p).

Definition with_text_flags (strike under kern : bool) (p : Paint) : Paint :=
  mkPaint (base p) (mFont p) (mLooper p) (mLetterSpacing p) (mWordSpacing p)
    (mFontFeatureSettings p) (mMinikinLocaleListId p) (mFamilyVariant p)
    (mHyphenEdit p) (mTypeface p) (mAlign p) strike under kern (mShader p).

Definition with_mShader (s : option (positive * Shader)) (p : Paint) : Paint :=
  mkPaint (base p) (mFont p) (mLooper p) (mLetterSpacing p) (mWordSpacing p)
    (mFontFeatureSettings p) (mMinikinLocaleListId p) (mFamilyVariant p)
    (mHyphenEdit p) (mTypeface p) (mAlign p) (mStrikeThru p) (mUnderline p)
    (mDevKern p) s.

(** [Paint::Paint()].  The members without an initialiser in the
    constructor take the defaults of their types. *)
Definition Paint_new : Paint :=
  mkPaint SkPaint_default (SkFont_setEdging kAlias SkFont_default) None
    0%float 0%float EmptyString 0 DEFAULT 0 None kLeft_Align
    false false false None.

(** [Paint::setShader]. *)
Definition setShader (shader : option (positive * Shader)) (p : Paint) : Paint :=
  let b :=
    match shader with
    | Some (_, sh) =>
        match asSkShader sh with
        | Some sk =>
            SkPaint_setImageFilter None (SkPaint_setShader (Some sk) (base p))
        | None =>
            SkPaint_setImageFilter (asSkImageFilter sh)
              (SkPaint_setShader None (base p))
        end
    | None => SkPaint_setImageFilter None (SkPaint_setShader None (base p))
    end in
  with_mShader shader (with_base b p).

(** [operator==(const Paint&, const Paint&)]: the conjunction of the
    fourteen comparisons of the source, in its order. *)
Definition Paint_eq (a b : Paint) : bool :=
  SkPaint_eqb (base a) (base b) &&
  SkFont_eqb (mFont a) (mFont b) &&
  ptr_eqb (mLooper a) (mLooper b) &&
  PrimFloat.eqb (mLetterSpacing a) (mLetterSpacing b) &&
  PrimFloat.eqb (mWordSpacing a) (mWordSpacing b) &&
  String.eqb (mFontFeatureSettings a) (mFontFeatureSettings b) &&
  Z.eqb (mMinikinLocaleListId a) (mMinikinLocaleListId b) &&
  FamilyVariant_eqb (mFamilyVariant a) (mFamilyVariant b) &&
  Z.eqb (mHyphenEdit a) (mHyphenEdit b) &&
  ptr_eqb (mTypeface a) (mTypeface b) &&
  Align_eqb (mAlign a) (mAlign b) &&
  Bool.eqb (mStrikeThru a) (mStrikeThru b) &&
  Bool.eqb (mUnderline a) (mUnderline b) &&
  Bool.eqb (mDevKern a) (mDevKern b).

(** ** Java flags compatibility *)

Definition uint32 (z : Z) : Z := z mod 2 ^ 32.

(* flags relating to SkPaint *)
Definition sAntiAliasFlag    : Z := 0x01.
Definition sFilterBitmapFlag : Z := 0x02.
Definition sDitherFlag       : Z := 0x04.
(* flags relating to SkFont *)
Definition sFakeBoldFlag     : Z := 0x020.
Definition sLinearMetrics    : Z := 0x040.
Definition sSubpixelMetrics  : Z := 0x080.
Definition sEmbeddedBitmaps  : Z := 0x400.
Definition sForceAutoHinting : Z := 0x800.
(* flags related to minikin::Paint *)
Definition sUnderlineFlag    : Z := 0x08.
Definition sStrikeThruFlag   : Z := 0x10.
(* flags no longer supported on native side (but mirrored for compatibility) *)
Definition sDevKernFlag      : Z := 0x100.

(** [-(int)b & flag]: the [int] 0 or -1, converted to [uint32_t] by the
    usual arithmetic conversions, and-ed with the flag. *)
Definition neg_bool_and (b : bool) (flag : Z) : Z :=
  Z.land (uint32 (- Z.b2z b)) flag.

(** [(flags & flag) != 0]. *)
Definition has_flag (flags flag : Z) : bool :=
  negb (Z.land flags flag =? 0).

Definition paintToLegacyFlags (paint : SkPaint) : Z :=
  let flags := 0 in
  let flags := Z.lor flags (neg_bool_and (isAntiAlias paint) sAntiAliasFlag) in
  let flags := Z.lor flags (neg_bool_and (isDither paint) sDitherFlag) in
  let flags :=
    if negb (SkFilterQuality_eqb (getFilterQuality paint) kNone_SkFilterQuality)
    then Z.lor flags sFilterBitmapFlag else flags in
  flags.

Definition fontToLegacyFlags (font : SkFont) : Z :=
  let flags := 0 in
  let flags := Z.lor flags (neg_bool_and (isEmbolden font) sFakeBoldFlag) in
  let flags := Z.lor flags (neg_bool_and (isLinearMetrics font) sLinearMetrics) in
  let flags := Z.lor flags (neg_bool_and (isSubpixel font) sSubpixelMetrics) in
  let flags := Z.lor flags (neg_bool_and (isEmbeddedBitmaps font) sEmbeddedBitmaps) in
  let flags := Z.lor flags (neg_bool_and (isForceAutoHinting font) sForceAutoHinting) in
  flags.

Definition applyLegacyFlagsToPaint (flags : Z) (paint : SkPaint) : SkPaint :=
  let paint := SkPaint_setAntiAlias (has_flag flags sAntiAliasFlag) paint in
  let paint := SkPaint_setDither (has_flag flags sDitherFlag) paint in
  if has_flag flags sFilterBitmapFlag
  then SkPaint_setFilterQuality kLow_SkFilterQuality paint
  else SkPaint_setFilterQuality kNone_SkFilterQuality paint.

Definition applyLegacyFlagsToFont (flags : Z) (font : SkFont) : SkFont :=
  let font := SkFont_setEmbolden (has_flag flags sFakeBoldFlag) font in
  let font := SkFont_setLinearMetrics (has_flag flags sLinearMetrics) font in
  let font := SkFont_setSubpixel (has_flag flags sSubpixelMetrics) font in
  let font := SkFont_setEmbeddedBitmaps (has_flag flags sEmbeddedBitmaps) font in
  let font := SkFont_setForceAutoHinting (has_flag flags sForceAutoHinting) font in
  if has_flag flags sAntiAliasFlag
  then SkFont_setEdging kAntiAlias font
  else SkFont_setEdging kAlias font.

Definition GetSkPaintJavaFlags (paint : SkPaint) : Z := paintToLegacyFlags paint.

Definition SetSkPaintJavaFlags (paint : SkPaint) (flags : Z) : SkPaint :=
  applyLegacyFlagsToPaint flags paint.

Definition getJavaFlags (p : Paint) : Z :=
  let flags := Z.lor (paintToLegacyFlags (base p)) (fontToLegacyFlags (mFont p)) in
  let flags := Z.lor flags (neg_bool_and (mStrikeThru p) sStrikeThruFlag) in
  let flags := Z.lor flags (neg_bool_and (mUnderline p) sUnderlineFlag) in
  let flags := Z.lor flags (neg_bool_and (mDevKern p) sDevKernFlag) in
  flags.

(** [Paint::setJavaFlags].  [applyLegacyFlagsToPaint] takes the paint as
    an [SkPaint*], so the setters it calls are those of the base. *)
Definition setJavaFlags (flags : Z) (p : Paint) : Paint :=
  let p := with_base (applyLegacyFlagsToPaint flags (base p)) p in
  let p := with_mFont (applyLegacyFlagsToFont flags (mFont p)) p in
  with_text_flags (has_flag flags sStrikeThruFlag)
                  (has_flag flags sUnderlineFlag)
                  (has_flag flags sDevKernFlag) p.

(** The eleven bits that have a native counterpart. *)
Definition legacyFlagsMask : Z := 0xDFF.

(** Two paints agree on the state [operator==] compares: the same
    [SkPaint] base, font, looper, text settings, typeface, alignment and
    text flags, and spacings that are equal as [float]s. *)
Definition agree_on_compared (a b : Paint) : Prop :=
  base a = base b /\
  mFont a = mFont b /\
  mLooper a = mLooper b /\
  PrimFloat.eqb (mLetterSpacing a) (mLetterSpacing b) = true /\
  PrimFloat.eqb (mWordSpacing a) (mWordSpacing b) = true /\
  mFontFeatureSettings a = mFontFeatureSettings b /\
  mMinikinLocaleListId a = mMinikinLocaleListId b /\
  mFamilyVariant a = mFamilyVariant b /\
  mHyphenEdit a = mHyphenEdit b /\
  mTypeface a = mTypeface b /\
  mAlign a = mAlign b /\
  mStrikeThru a = mStrikeThru b /\
  mUnderline a = mUnderline b /\
  mDevKern a = mDevKern b.

(** Two shader objects at different addresses that offer the same
    [SkShader], and the paints they are set on. *)
Definition gradient : Shader := mkShader (Some 7%positive) None.
Definition paint_one : Paint := setShader (Some (1%positive, gradient)) Paint_new.
Definition paint_two : Paint := setShader (Some (2%positive, gradient)) Paint_new.

(** ** The remaining members of [Paint] *)

(** [Paint::Paint(const Paint&)]: every member is copied, [mShader]
    included. *)
Definition Paint_copy (paint : Paint) : Paint :=
  mkPaint (base paint) (mFont paint) (mLooper paint) (mLetterSpacing paint)
    (mWordSpacing paint) (mFontFeatureSettings paint)
    (mMinikinLocaleListId paint) (mFamilyVariant paint) (mHyphenEdit paint)
    (mTypeface paint) (mAlign paint) (mStrikeThru paint) (mUnderline paint)
    (mDevKern paint) (mShader paint).

(** [Paint::operator=]: the assigned-to paint afterwards. *)
Definition Paint_assign (other this : Paint) : Paint :=
  mkPaint (base other) (mFont other) (mLooper other) (mLetterSpacing other)
    (mWordSpacing other) (mFontFeatureSettings other)
    (mMinikinLocaleListId other) (mFamilyVariant other) (mHyphenEdit other)
    (mTypeface other) (mAlign other) (mStrikeThru other) (mUnderline other)
    (mDevKern other) (mShader other).

(** [SkPaint::reset()] puts the base back to [SkPaint()]. *)
Definition SkPaint_reset (p : SkPaint) : SkPaint := SkPaint_default.

(** [Paint::reset]: the base, the font, the looper and the three text
    flags are reset; the other members are not assigned. *)
Definition reset (p : Paint) : Paint :=
  mkPaint (SkPaint_reset (base p)) (SkFont_setEdging kAlias SkFont_default)
    None (mLetterSpacing p) (mWordSpacing p) (mFontFeatureSettings p)
    (mMinikinLocaleListId p) (mFamilyVariant p) (mHyphenEdit p) (mTypeface p)
    (mAlign p) false false false (mShader p).

(** The [SkASSERT] at the head of [Paint::setAntiAlias]; it is compiled
    only in debug builds. *)
Definition setAntiAlias_asserts (p : Paint) : bool :=
  negb (Edging_eqb (getEdging (mFont p)) kSubpixelAntiAlias).

(** [Paint::setAntiAlias]. *)
Definition setAntiAlias (aa : bool) (p : Paint) : Paint :=
  let p := with_base (SkPaint_setAntiAlias aa (base p)) p in
  with_mFont (SkFont_setEdging (if aa then kAntiAlias else kAlias) (mFont p)) p.

(** The anti-aliasing of the paint and the edging of its font say the
    same ("to keep them insync"). *)
Definition in_sync (p : Paint) : Prop :=
  getEdging (mFont p) = if isAntiAlias (base p) then kAntiAlias else kAlias.

(** The filter quality is one of the two the flag word can express. *)
Definition flag_quality (p : Paint) : Prop :=
  getFilterQuality (base p) = kNone_SkFilterQuality \/
  getFilterQuality (base p) = kLow_SkFilterQuality.

(** The members neither the flag word nor [setAntiAlias] reaches. *)
Definition beyond_flags (p : Paint) :=
  (getShader (base p), getImageFilter (base p), mLooper p, mLetterSpacing p,
   mWordSpacing p, mFontFeatureSettings p, mMinikinLocaleListId p,
   mFamilyVariant p, mHyphenEdit p, mTypeface p, mAlign p, mShader p).

(** A paint with medium filtering, and one whose letter spacing is not a
    number. *)
Definition paint_medium : Paint :=
  with_base (SkPaint_setFilterQuality kMedium_SkFilterQuality SkPaint_default)
            Paint_new.
Definition paint_nan : Paint :=
  mkPaint SkPaint_default (SkFont_setEdging kAlias SkFont_default) None
    PrimFloat.nan 0%float EmptyString 0 DEFAULT 0 None kLeft_Align
    false false false None.

End Paint.

(** * Part 2: DeferredLayerUpdater.h *)

Module Updater.

(** [SkMatrix]: nine scalars; the updater only copies it. *)
Record SkMatrix := mkSkMatrix { fMat : list float }.

(** Modelled from the spec: one frame at the boundary with the producer,
    which "supplies (slot id, hardware buffer, dataspace, ...) per
    available frame". *)
Record Frame := mkFrame {
  frame_slot : Z;
  frame_buffer : ptr;       (* AHardwareBuffer* *)
  frame_dataspace : Z       (* android_dataspace *)
}.

(** Modelled from the spec: the producer-side buffer source
    ([ASurfaceTexture], behind [AutoTextureRelease]; it belongs to the
    platform): the frames queued and not yet latched, oldest first. *)
Record ASurfaceTexture := mkSurfaceTexture {
  st_id : positive;
  st_queued : list Frame
}.

Definition HAL_DATASPACE_UNKNOWN : Z := 0.

(** [DeferredLayerUpdater::ImageSlot], with its default member
    initialisers. *)
Record ImageSlot := mkImageSlot {
  mDataspace : Z;           (* android_dataspace *)
  mBuffer : ptr;            (* AHardwareBuffer* *)
  mTextureRelease : ptr     (* AutoBackendTextureRelease* *)
}.

Definition ImageSlot_new : ImageSlot :=
  mkImageSlot HAL_DATASPACE_UNKNOWN None None.

Definition kSrcOver : Z := 3.

(** The data members of [DeferredLayerUpdater], in the order of the
    header.  [int] members are compared and stored, never computed with,
    so they are integers. *)
Record DeferredLayerUpdater := mkUpdater {
  mImageSlots : gmap Z ImageSlot;            (* std::map<int, ImageSlot> *)
  mRenderState : positive;                   (* RenderState& *)
  mWidth : Z;
  mHeight : Z;
  mBlend : bool;
  mColorFilter : ptr;                        (* sk_sp<SkColorFilter> *)
  mAlpha : Z;
  mMode : Z;                                 (* SkBlendMode *)
  mSurfaceTexture : option ASurfaceTexture;  (* AutoTextureRelease *)
  mTransform : ptr;                          (* SkMatrix* *)
  mGLContextAttached : bool;
  mUpdateTexImage : bool;
  mCurrentSlot : Z;
  mLayer : ptr                               (* Layer* *)
}.

Definition with_size (w h : Z) (u : DeferredLayerUpdater) :=
  mkUpdater (mImageSlots u) (mRenderState u) w h (mBlend u) (mColorFilter u)
    (mAlpha u) (mMode u) (mSurfaceTexture u) (mTransform u)
    (mGLContextAttached u) (mUpdateTexImage u) (mCurrentSlot u) (mLayer u).

Definition with_mBlend (b : bool) (u : DeferredLayerUpdater) :=
  mkUpdater (mImageSlots u) (mRenderState u) (mWidth u) (mHeight u) b
    (mColorFilter u) (mAlpha u) (mMode u) (mSurfaceTexture u) (mTransform u)
    (mGLContextAttached u) (mUpdateTexImage u) (mCurrentSlot u) (mLayer u).

Definition with_mUpdateTexImage (b : bool) (u : DeferredLayerUpdater) :=
  mkUpdater (mImageSlots u) (mRenderState u) (mWidth u) (mHeight u) (mBlend u)
    (mColorFilter u) (mAlpha u) (mMode u) (mSurfaceTexture u) (mTransform u)
    (mGLContextAttached u) b (mCurrentSlot u) (mLayer u).

Definition with_mTransform (t : ptr) (u : DeferredLayerUpdater) :=
  mkUpdater (mImageSlots u) (mRenderState u) (mWidth u) (mHeight u) (mBlend u)
    (mColorFilter u) (mAlpha u) (mMode u) (mSurfaceTexture u) t
    (mGLContextAttached u) (mUpdateTexImage u) (mCurrentSlot u) (mLayer u).

Definition with_mSurfaceTexture (st : option ASurfaceTexture)
    (u : DeferredLayerUpdater) :=
  mkUpdater (mImageSlots u) (mRenderState u) (mWidth u) (mHeight u) (mBlend u)
    (mColorFilter u) (mAlpha u) (mMode u) st (mTransform u)
    (mGLContextAttached u) (mUpdateTexImage u) (mCurrentSlot u) (mLayer u).

Definition with_mImageSlots (m : gmap Z ImageSlot) (u : DeferredLayerUpdater) :=
  mkUpdater m (mRenderState u) (mWidth u) (mHeight u) (mBlend u)
    (mColorFilter u) (mAlpha u) (mMode u) (mSurfaceTexture u) (mTransform u)
    (mGLContextAttached u) (mUpdateTexImage u) (mCurrentSlot u) (mLayer u).

Definition with_mCurrentSlot (k : Z) (u : DeferredLayerUpdater) :=
  mkUpdater (mImageSlots u) (mRenderState u) (mWidth u) (mHeight u) (mBlend u)
    (mColorFilter u) (mAlpha u) (mMode u) (mSurfaceTexture u) (mTransform u)
    (mGLContextAttached u) (mUpdateTexImage u) k (mLayer u).

Definition with_mLayer (l : ptr) (u : DeferredLayerUpdater) :=
  mkUpdater (mImageSlots u) (mRenderState u) (mWidth u) (mHeight u) (mBlend u)
    (mColorFilter u) (mAlpha u) (mMode u) (mSurfaceTexture u) (mTransform u)
    (mGLContextAttached u) (mUpdateTexImage u) (mCurrentSlot u) l.

(** [bool setSize(int width, int height)]: the returned flag and the
    updater afterwards. *)
Definition setSize (width height : Z) (u : DeferredLayerUpdater)
    : bool * DeferredLayerUpdater :=
  if negb (mWidth u =? width) || negb (mHeight u =? height)
  then (true, with_size width height u)
  else (false, u).

Definition getWidth (u : DeferredLayerUpdater) : Z := mWidth u.
Definition getHeight (u : DeferredLayerUpdater) : Z := mHeight u.

(** [bool setBlend(bool blend)]. *)
Definition setBlend (blend : bool) (u : DeferredLayerUpdater)
    : bool * DeferredLayerUpdater :=
  if negb (Bool.eqb blend (mBlend u))
  then (true, with_mBlend blend u)
  else (false, u).

(** [void updateTexImage()]. *)
Definition updateTexImage (u : DeferredLayerUpdater) : DeferredLayerUpdater :=
  with_mUpdateTexImage true u.

(** The free store of [SkMatrix] objects: the live ones by address, and
    the next address [new] hands out.  Addresses are allocation
    identities: one is never handed out twice, so a deleted matrix is
    told apart from any later one. *)
Record MatrixStore := mkMatrixStore {
  live : gmap positive SkMatrix;
  next_addr : positive
}.

(** [delete p]: nothing for a null pointer; undefined (no result) for a
    pointer to no live object. *)
Definition delete_matrix (p : ptr) (h : MatrixStore) : option MatrixStore :=
  match p with
  | None => Some h
  | Some a =>
      match live h !! a with
      | Some _ => Some (mkMatrixStore (delete a (live h)) (next_addr h))
      | None => None
      end
  end.

(** [new SkMatrix(m)]. *)
Definition new_matrix (m : SkMatrix) (h : MatrixStore) : positive * MatrixStore :=
  (next_addr h,
   mkMatrixStore (<[next_addr h := m]> (live h)) (Pos.succ (next_addr h))).

(** [void setTransform(const SkMatrix* matrix)]: the argument is a
    pointer into the same free store; it is read after the delete. *)
Definition setTransform (matrix : ptr) (s : DeferredLayerUpdater * MatrixStore)
    : option (DeferredLayerUpdater * MatrixStore) :=
  let (u, h) := s in
  match delete_matrix (mTransform u) h with
  | None => None
  | Some h1 =>
      match matrix with
      | Some a =>
          match live h1 !! a with
          | Some m =>
              let (a', h2) := new_matrix m h1 in
              Some (with_mTransform (Some a') u, h2)
          | None => None
          end
      | None => Some (with_mTransform None u, h1)
      end
  end.

Definition getTransform (u : DeferredLayerUpdater) : ptr := mTransform u.

Definition backingLayer (u : DeferredLayerUpdater) : ptr := mLayer u.

(** A sequence of calls of the two reporting setters, with what each call
    saw and returned. *)
Inductive setter_call :=
  | SetSize (width height : Z)
  | SetBlend (blend : bool).

Definition do_call (c : setter_call) (u : DeferredLayerUpdater)
    : bool * DeferredLayerUpdater :=
  match c with
  | SetSize w h => setSize w h u
  | SetBlend b => setBlend b u
  end.

Fixpoint run_calls (cs : list setter_call) (u : DeferredLayerUpdater)
    : list (DeferredLayerUpdater * setter_call * bool) * DeferredLayerUpdater :=
  match cs with
  | [] => ([], u)
  | c :: cs' =>
      let (r, u1) := do_call c u in
      let (log, u2) := run_calls cs' u1 in
      ((u, c, r) :: log, u2)
  end.

(** The argument of a call differs from the value the updater stores. *)
Definition differs (c : setter_call) (u : DeferredLayerUpdater) : Prop :=
  match c with
  | SetSize w h => (mWidth u, mHeight u) <> (w, h)
  | SetBlend b => mBlend u <> b
  end.

(** The updater stores the argument of a call. *)
Definition stores (c : setter_call) (u : DeferredLayerUpdater) : Prop :=
  match c with
  | SetSize w h => getWidth u = w /\ getHeight u = h
  | SetBlend b => mBlend u = b
  end.

(** Every member but [mWidth] and [mHeight]; every member but [mBlend];
    every member but [mUpdateTexImage]; every member but [mTransform]. *)
Definition all_but_size (u : DeferredLayerUpdater) :=
  (mImageSlots u, mRenderState u, mBlend u, mColorFilter u, mAlpha u, mMode u,
   mSurfaceTexture u, mTransform u, mGLContextAttached u, mUpdateTexImage u,
   mCurrentSlot u, mLayer u).

Definition all_but_blend (u : DeferredLayerUpdater) :=
  (mImageSlots u, mRenderState u, mWidth u, mHeight u, mColorFilter u, mAlpha u,
   mMode u, mSurfaceTexture u, mTransform u, mGLContextAttached u,
   mUpdateTexImage u, mCurrentSlot u, mLayer u).

Definition all_but_flag (u : DeferredLayerUpdater) :=
  (mImageSlots u, mRenderState u, mWidth u, mHeight u, mBlend u, mColorFilter u,
   mAlpha u, mMode u, mSurfaceTexture u, mTransform u, mGLContextAttached u,
   mCurrentSlot u, mLayer u).

Definition all_but_transform (u : DeferredLayerUpdater) :=
  (mImageSlots u, mRenderState u, mWidth u, mHeight u, mBlend u, mColorFilter u,
   mAlpha u, mMode u, mSurfaceTexture u, mGLContextAttached u,
   mUpdateTexImage u, mCurrentSlot u, mLayer u).

(** The store hands out addresses above every live one, and the matrix
    the updater owns is live. *)
Definition store_ok (h : MatrixStore) : Prop :=
  forall a, is_Some (live h !! a) -> (a < next_addr h)%positive.

Definition owns_live (u : DeferredLayerUpdater) (h : MatrixStore) : Prop :=
  forall a, mTransform u = Some a -> is_Some (live h !! a).

(** What a caller may pass: null, or a pointer to a live matrix of its
    own.  The updater owns its matrix exclusively, so the caller's is
    another object. *)
Definition caller_matrix (matrix : ptr) (u : DeferredLayerUpdater)
    (h : MatrixStore) : Prop :=
  forall a, matrix = Some a -> is_Some (live h !! a) /\ mTransform u <> Some a.

(** The live matrices once the one at [p] is deleted. *)
Definition without (p : ptr) (m : gmap positive SkMatrix)
    : gmap positive SkMatrix :=
  match p with
  | Some a => delete a m
  | None => m
  end.

(** One updater owning the matrix at address 1, a caller's matrix at
    address 2, and the store holding both. *)
Definition identity_matrix : SkMatrix :=
  mkSkMatrix [1; 0; 0; 0; 1; 0; 0; 0; 1]%float.
Definition scale_matrix : SkMatrix :=
  mkSkMatrix [2; 0; 0; 0; 2; 0; 0; 0; 1]%float.
Definition store_two : MatrixStore :=
  mkMatrixStore (<[1%positive := identity_matrix]>
                   (<[2%positive := scale_matrix]> ∅)) 3%positive.
Definition updater_one : DeferredLayerUpdater :=
  mkUpdater ∅ 1%positive 0 0 false None 255 kSrcOver None (Some 1%positive)
            false false (-1) None.

(** A sequence of [setTransform] calls; it has a result when every call
    has one. *)
Fixpoint run_transforms (ms : list ptr) (s : DeferredLayerUpdater * MatrixStore)
    : option (DeferredLayerUpdater * MatrixStore) :=
  match ms with
  | [] => Some s
  | m :: ms' =>
      match setTransform m s with
      | Some s' => run_transforms ms' s'
      | None => None
      end
  end.

End Updater.

(** * Part 3: the members defined in DeferredLayerUpdater.cpp *)

Module Lifecycle.
Import Updater.

(** Modelled from the spec: the Texture Resource Handle
    ([AutoBackendTextureRelease], defined outside the two files): a GPU
    texture made from a buffer and a dataspace for a GPU context, shared
    between the cache entry and the image made from it; [tex_refs] counts
    these owners, and the holder of the last reference frees the
    texture. *)
Record Texture := mkTexture {
  tex_buffer : ptr;
  tex_dataspace : Z;
  tex_context : positive;       (* GrDirectContext* it was created for *)
  tex_refs : nat;
  tex_queue_owned : bool        (* still claims buffer-queue ownership *)
}.

(** [SkRect]. *)
Record SkRect := mkSkRect {
  fLeft : float; fTop : float; fRight : float; fBottom : float
}.

(** Modelled from the spec: the backing render target ([Layer], declared in
    [Layer.h]), reduced to what [updateLayer] binds onto it. *)
Record Layer := mkLayer {
  layer_image : ptr;
  layer_windowTransform : Z;
  layer_cropRect : SkRect;
  layer_forceFilter : bool
}.

(** What the updater does to the resources around it, in the order it does
    it. *)
Inductive event :=
  | CacheResolve (buffer : ptr) (dataspace : Z)    (* the cache was asked for the image of a buffer *)
  | TextureCreate (h : positive) (context : positive)
  | HandleUnref (h : positive) (context : ptr)     (* a cache entry dropped its reference *)
  | QueueRelease (h : positive)
  | LayerRelease (l : positive)
  | SourceRelease (st : positive).

(** The resources the updater refers to by pointer: texture handles,
    layers, the next handle to be created, and the events so far. *)
Record World := mkWorld {
  textures : gmap positive Texture;
  layers : gmap positive Layer;
  next_handle : positive;
  trace : list event
}.

Definition events_since (w w' : World) : list event :=
  drop (length (trace w)) (trace w').


Definition is_release (e : event) : bool :=
  match e with
  | HandleUnref _ _ | LayerRelease _ | SourceRelease _ => true
  | _ => false
  end.

(** Modelled from the spec: dropping one reference of a handle; "the
    final decrement (whichever side releases last) frees the underlying GPU
    resource". *)
Definition unref (h : positive) (ts : gmap positive Texture)
    : gmap positive Texture :=
  match ts !! h with
  | Some t =>
      match tex_refs t with
      | S (S n) =>
          <[h := mkTexture (tex_buffer t) (tex_dataspace t) (tex_context t)
                           (S n) (tex_queue_owned t)]> ts
      | _ => delete h ts
      end
  | None => ts
  end.

Definition without_queue_claim (t : Texture) : Texture :=
  mkTexture (tex_buffer t) (tex_dataspace t) (tex_context t) (tex_refs t) false.

(** Modelled from the spec: [ImageSlot::clear], whose body is in
    [DeferredLayerUpdater.cpp].  "Drops this cache entry's reference";
    "clear must leave it null"; "clearing an already-empty slot is a
    no-op".  A null [context] is the emergency path. *)
Definition ImageSlot_clear (context : ptr) (s : ImageSlot * World)
    : ImageSlot * World :=
  let (slot, w) := s in
  match mTextureRelease slot with
  | Some h =>
      (mkImageSlot (mDataspace slot) (mBuffer slot) None,
       mkWorld (unref h (textures w)) (layers w) (next_handle w)
               (trace w ++ [HandleUnref h context]))
  | None => (slot, w)
  end.

(** Modelled from the spec: [ImageSlot::releaseQueueOwnership], whose body
    is in [DeferredLayerUpdater.cpp].  "Forwarded to the active handle,
    no-op if none exists"; the GPU resource is not destroyed. *)
Definition ImageSlot_releaseQueueOwnership (context : ptr)
    (s : ImageSlot * World) : ImageSlot * World :=
  let (slot, w) := s in
  match mTextureRelease slot with
  | Some h =>
      (slot,
       mkWorld (alter without_queue_claim h (textures w)) (layers w) (next_handle w)
               (trace w ++ [QueueRelease h]))
  | None => (slot, w)
  end.

(** The entry caches the image asked for: it holds a handle, for this
    buffer and this dataspace. *)
Definition caches (slot : ImageSlot) (buffer : ptr) (dataspace : Z) : bool :=
  bool_decide (is_Some (mTextureRelease slot))
  && ptr_eqb buffer (mBuffer slot)
  && (dataspace =? mDataspace slot).

(** Modelled from the spec: [ImageSlot::createIfNeeded], whose body is in
    [DeferredLayerUpdater.cpp].  A handle is created "only when no cached
    handle exists for the slot, the buffer identity differs from the cached
    one, the dataspace differs, or the caller explicitly forces
    recreation"; otherwise the cached image is returned.  Creating "clears
    the existing handle" first.  Creation can fail ("GPU texture ...
    creation fails", recovered by "surfacing a null image"): [gpu_creates]
    says whether the GPU, asked in this call, makes the texture, and there
    is none to make without a buffer.  The entry records the buffer and
    dataspace it saw last.  The image is named by its handle; a new
    texture has two owners, the entry and the image.  Every call leaves a
    [CacheResolve] event. *)
Definition createIfNeeded (gpu_creates : bool) (buffer : ptr) (dataspace : Z)
    (forceCreate : bool) (context : positive) (s : ImageSlot * World)
    : ptr * (ImageSlot * World) :=
  let (slot, w) := s in
  let w0 := mkWorld (textures w) (layers w) (next_handle w)
                    (trace w ++ [CacheResolve buffer dataspace]) in
  if caches slot buffer dataspace && negb forceCreate
  then (mTextureRelease slot, (slot, w0))
  else
    let (_, w1) := ImageSlot_clear (Some context) (slot, w0) in
    if gpu_creates && bool_decide (is_Some buffer)
    then
      let h := next_handle w1 in
      (Some h,
       (mkImageSlot dataspace buffer (Some h),
        mkWorld (<[h := mkTexture buffer dataspace context 2 true]> (textures w1))
                (layers w1) (Pos.succ h)
                (trace w1 ++ [TextureCreate h context])))
    else (None, (mkImageSlot dataspace buffer None, w1)).


(** Modelled from the spec: the producer's latest frame; latching it
    discards the older ones ("never an intermediate one"). *)
Definition latest_frame (st : ASurfaceTexture) : option Frame :=
  last (st_queued st).

Definition latched (st : ASurfaceTexture) : ASurfaceTexture :=
  mkSurfaceTexture (st_id st) [].

(** Modelled from the spec: the producer queues a frame. *)
Definition queueBuffer (f : Frame) (st : ASurfaceTexture) : ASurfaceTexture :=
  mkSurfaceTexture (st_id st) (st_queued st ++ [f]).

(** Modelled from the spec: [DeferredLayerUpdater::updateLayer], whose body
    is in [DeferredLayerUpdater.cpp].  With the pending-update flag set it
    "resolves the current producer slot, calls into the Image Slot Cache to
    obtain/create the backing image, and binds the resulting GPU-backed
    image plus the supplied texture-transform and crop rectangle onto the
    backing render target"; it "clears the pending-update flag on
    success".  When the cache surfaces a null image the frame's visual
    update is skipped: the render target keeps what it shows and the flag
    stays.  A slot the cache has never seen is "no cached entry".  Without
    the flag, without a producer frame or without a render target it
    changes nothing.  The image bound is the cache's; the [layerImage]
    argument of the declaration has no part in the description.
    [gpu_creates] is handed on to [createIfNeeded]. *)
Definition updateLayer (gpu_creates : bool) (forceFilter : bool)
    (textureTransform : Z) (cropRect : SkRect) (layerImage : ptr)
    (s : DeferredLayerUpdater * World) : DeferredLayerUpdater * World :=
  let (u, w) := s in
  if negb (mUpdateTexImage u) then (u, w) else
  match mSurfaceTexture u, mLayer u with
  | Some st, Some l =>
      match latest_frame st, layers w !! l with
      | Some f, Some _ =>
          let slot := default ImageSlot_new (mImageSlots u !! frame_slot f) in
          let '(image, (slot', w1)) :=
            createIfNeeded gpu_creates (frame_buffer f) (frame_dataspace f)
                           false (mRenderState u) (slot, w) in
          let u1 :=
            with_mCurrentSlot (frame_slot f)
              (with_mSurfaceTexture (Some (latched st))
                 (with_mImageSlots (<[frame_slot f := slot']> (mImageSlots u)) u)) in
          match image with
          | Some _ =>
              let bound := mkLayer image textureTransform cropRect forceFilter in
              (with_mUpdateTexImage false u1,
               mkWorld (textures w1) (<[l := bound]> (layers w1))
                       (next_handle w1) (trace w1))
          | None => (u1, w1)
          end
      | _, _ => (u, w)
      end
  | _, _ => (u, w)
  end.

(** Modelled from the spec: clearing every entry of the slot cache, one
    [clear] per entry. *)
Definition clear_slots (context : ptr) (s : gmap Z ImageSlot * World)
    : gmap Z ImageSlot * World :=
  let (slots, w) := s in
  map_fold
    (fun k slot (acc : gmap Z ImageSlot * World) =>
       let (slot', w') := ImageSlot_clear context (slot, snd acc) in
       (<[k := slot']> (fst acc), w'))
    (∅, w) slots.

(** Modelled from the spec: releasing the render target, when there is
    one. *)
Definition release_layer (l : ptr) (w : World) : World :=
  match l with
  | Some a =>
      mkWorld (textures w) (delete a (layers w)) (next_handle w)
              (trace w ++ [LayerRelease a])
  | None => w
  end.

(** Modelled from the spec: [DeferredLayerUpdater::destroyLayer], whose
    body is in [DeferredLayerUpdater.cpp].  "Clears every slot-cache
    entry, releases the backing render target exactly once, and
    transitions to Destroyed"; the updater is destroyed when it has no
    render target. *)
Definition destroyLayer (s : DeferredLayerUpdater * World)
    : DeferredLayerUpdater * World :=
  let (u, w) := s in
  let (slots, w1) := clear_slots (Some (mRenderState u)) (mImageSlots u, w) in
  (with_mLayer None (with_mImageSlots slots u), release_layer (mLayer u) w1).

(** Modelled from the spec: [DeferredLayerUpdater::onContextDestroyed],
    whose body is in [DeferredLayerUpdater.cpp].  "Must release all
    slot-cache entries and the backing render target without issuing
    further GPU calls": the entries are cleared with no context. *)
Definition onContextDestroyed (s : DeferredLayerUpdater * World)
    : DeferredLayerUpdater * World :=
  let (u, w) := s in
  let (slots, w1) := clear_slots None (mImageSlots u, w) in
  (with_mLayer None (with_mImageSlots slots u), release_layer (mLayer u) w1).

(** Modelled from the spec: releasing the producer source, when one is
    attached. *)
Definition release_source (st : option ASurfaceTexture) (w : World) : World :=
  match st with
  | Some t =>
      mkWorld (textures w) (layers w) (next_handle w)
              (trace w ++ [SourceRelease (st_id t)])
  | None => w
  end.

(** Modelled from the spec: [DeferredLayerUpdater::detachSurfaceTexture],
    whose body is in [DeferredLayerUpdater.cpp].  "Releases the producer
    source and, for the currently active slot, calls releaseQueueOwnership
    then clear". *)
Definition detachSurfaceTexture (s : DeferredLayerUpdater * World)
    : DeferredLayerUpdater * World :=
  let (u, w) := s in
  let context := Some (mRenderState u) in
  let w1 := release_source (mSurfaceTexture u) w in
  let u1 := with_mSurfaceTexture None u in
  match mImageSlots u !! mCurrentSlot u with
  | Some slot =>
      let (slot', w2) :=
        ImageSlot_clear context
          (ImageSlot_releaseQueueOwnership context (slot, w1)) in
      (with_mImageSlots (<[mCurrentSlot u := slot']> (mImageSlots u)) u1, w2)
  | None => (u1, w1)
  end.




Definition count_releases (evs : list event) : nat :=
  length (filter (fun e => is_release e = true) evs).

(** The handles the entries of a cache hold, and the events of dropping
    one reference of each, of releasing a render target and of releasing a
    producer source. *)
Definition handles_of (slots : gmap Z ImageSlot) : list positive :=
  omap mTextureRelease (snd <$> map_to_list slots).

Definition unref_events (context : ptr) (hs : list positive) : list event :=
  (fun h => HandleUnref h context) <$> hs.

Definition layer_events (l : ptr) : list event :=
  match l with Some a => [LayerRelease a] | None => [] end.

Definition source_events (st : option ASurfaceTexture) : list event :=
  match st with Some t => [SourceRelease (st_id t)] | None => [] end.

Definition detach_events (context : ptr) (slot : option ImageSlot) : list event :=
  match slot with
  | Some s =>
      match mTextureRelease s with
      | Some h => [QueueRelease h; HandleUnref h context]
      | None => []
      end
  | None => []
  end.

Definition cleared (slot : ImageSlot) : ImageSlot :=
  mkImageSlot (mDataspace slot) (mBuffer slot) None.

Definition world_b5 : World :=
  mkWorld {[ 1%positive := mkTexture (Some 5%positive) 1 9%positive 2 true ]}
          {[ 1%positive := mkLayer None 0 (mkSkRect 0 0 0 0) false ]}
          2%positive [].

(** An attached updater with a render target, an empty cache, and a
    producer that has queued buffer 5 and then buffer 6, both in slot 0. *)
Definition producer_two : ASurfaceTexture :=
  queueBuffer (mkFrame 0 (Some 6%positive) 1)
    (queueBuffer (mkFrame 0 (Some 5%positive) 1) (mkSurfaceTexture 1%positive [])).
Definition updater_attached : DeferredLayerUpdater :=
  mkUpdater ∅ 9%positive 0 0 false None 255 kSrcOver (Some producer_two) None
            false false (-1) (Some 1%positive).

(** The producer delivers a frame and signals it. *)
Definition deliver (f : Frame) (s : DeferredLayerUpdater * World)
    : DeferredLayerUpdater * World :=
  let (u, w) := s in
  (updateTexImage
     (with_mSurfaceTexture (queueBuffer f <$> mSurfaceTexture u) u), w).

Definition render_pass (s : DeferredLayerUpdater * World)
    : DeferredLayerUpdater * World :=
  updateLayer true false 0 (mkSkRect 0 0 1 1) None s.





Definition updater_idle : DeferredLayerUpdater :=
  with_mSurfaceTexture (Some (mkSurfaceTexture 1%positive [])) updater_attached.

End Lifecycle.

(** * Facts about PaintImpl.cpp *)

Module PaintFacts.
Import Paint.

Lemma ptr_eqb_refl (p : ptr) : ptr_eqb p p = true.
Proof. destruct p as [a|]; simpl; [apply Pos.eqb_refl | reflexivity]. Qed.

Lemma SkPaint_eqb_refl (p : SkPaint) : SkPaint_eqb p p = true.
Proof.
  unfold SkPaint_eqb.
  rewrite !Bool.eqb_reflx, !ptr_eqb_refl.
  now destruct (getFilterQuality p).
Qed.

Lemma SkFont_eqb_refl (f : SkFont) : SkFont_eqb f f = true.
Proof.
  unfold SkFont_eqb. rewrite !Bool.eqb_reflx. now destruct (getEdging f).
Qed.

(** A single bit of a word, read through [Z.land]. *)
Lemma land_pow2 (f k : Z) :
  0 <= k -> Z.land f (2 ^ k) = if Z.testbit f k then 2 ^ k else 0.
Proof.
  intros Hk. apply Z.bits_inj'. intros n Hn.
  rewrite Z.land_spec, Z.pow2_bits_eqb by assumption.
  destruct (Z.testbit f k) eqn:Hf.
  - rewrite Z.pow2_bits_eqb by assumption.
    destruct (Z.eqb_spec k n) as [->|Hne].
    + now rewrite Hf.
    + apply andb_false_r.
  - rewrite Z.bits_0. destruct (Z.eqb_spec k n) as [->|Hne].
    + now rewrite Hf.
    + apply andb_false_r.
Qed.

Lemma has_flag_pow2 (f k : Z) : 0 <= k -> has_flag f (2 ^ k) = Z.testbit f k.
Proof.
  intros Hk. unfold has_flag. rewrite land_pow2 by assumption.
  destruct (Z.testbit f k); [|reflexivity].
  assert (0 < 2 ^ k) by (apply Z.pow_pos_nonneg; lia).
  destruct (Z.eqb_spec (2 ^ k) 0); [lia | reflexivity].
Qed.

(** [-(int)b & flag] selects the flag. *)
Lemma neg_bool_and_select (b : bool) (k : Z) :
  0 <= k < 32 -> neg_bool_and b (2 ^ k) = if b then 2 ^ k else 0.
Proof.
  intros Hk. unfold neg_bool_and, uint32. destruct b; simpl Z.b2z.
  - change (Z.opp 1 mod 2 ^ 32) with (Z.ones 32).
    rewrite Z.land_comm, Z.land_ones by lia.
    apply Z.mod_small. split; [apply Z.pow_nonneg; lia|].
    apply Z.pow_lt_mono_r; lia.
  - reflexivity.
Qed.

(** Writing a flag bit and reading it back keeps that bit of the word. *)
Lemma flag_bit_kept (f k : Z) :
  0 <= k < 32 -> neg_bool_and (has_flag f (2 ^ k)) (2 ^ k) = Z.land f (2 ^ k).
Proof.
  intros Hk. rewrite neg_bool_and_select, has_flag_pow2, land_pow2 by lia.
  reflexivity.
Qed.

Lemma filter_bit_kept (f acc : Z) :
  (if negb (SkFilterQuality_eqb
              (if has_flag f sFilterBitmapFlag
               then kLow_SkFilterQuality else kNone_SkFilterQuality)
              kNone_SkFilterQuality)
   then Z.lor acc sFilterBitmapFlag else acc)
  = Z.lor acc (Z.land f sFilterBitmapFlag).
Proof.
  change sFilterBitmapFlag with (2 ^ 1).
  rewrite has_flag_pow2, land_pow2 by lia.
  destruct (Z.testbit f 1); simpl; [reflexivity | now rewrite Z.lor_0_r].
Qed.

Lemma paintToLegacyFlags_apply (f : Z) (p : SkPaint) :
  paintToLegacyFlags (applyLegacyFlagsToPaint f p)
  = Z.lor (Z.lor (Z.land f sAntiAliasFlag) (Z.land f sDitherFlag))
          (Z.land f sFilterBitmapFlag).
Proof.
  unfold paintToLegacyFlags, applyLegacyFlagsToPaint.
  rewrite <- filter_bit_kept.
  change sAntiAliasFlag with (2 ^ 0). change sDitherFlag with (2 ^ 2).
  rewrite <- !flag_bit_kept by lia.
  destruct (has_flag f sFilterBitmapFlag); reflexivity.
Qed.

Lemma fontToLegacyFlags_apply (f : Z) (font : SkFont) :
  fontToLegacyFlags (applyLegacyFlagsToFont f font)
  = Z.lor (Z.lor (Z.lor (Z.lor (Z.land f sFakeBoldFlag) (Z.land f sLinearMetrics))
                        (Z.land f sSubpixelMetrics))
                 (Z.land f sEmbeddedBitmaps))
          (Z.land f sForceAutoHinting).
Proof.
  unfold fontToLegacyFlags, applyLegacyFlagsToFont.
  change sFakeBoldFlag with (2 ^ 5). change sLinearMetrics with (2 ^ 6).
  change sSubpixelMetrics with (2 ^ 7). change sEmbeddedBitmaps with (2 ^ 10).
  change sForceAutoHinting with (2 ^ 11).
  rewrite <- !flag_bit_kept by lia.
  destruct (has_flag f sAntiAliasFlag); reflexivity.
Qed.

Lemma getJavaFlags_setJavaFlags (flags : Z) (p : Paint) :
  getJavaFlags (setJavaFlags flags p) = Z.land flags legacyFlagsMask.
Proof.
  unfold getJavaFlags, setJavaFlags. cbn [base mFont mStrikeThru mUnderline mDevKern
    with_base with_mFont with_text_flags].
  rewrite paintToLegacyFlags_apply, fontToLegacyFlags_apply.
  change sStrikeThruFlag with (2 ^ 4). change sUnderlineFlag with (2 ^ 3).
  change sDevKernFlag with (2 ^ 8).
  rewrite !flag_bit_kept by lia.
  rewrite <- !Z.land_lor_distr_r.
  reflexivity.
Qed.

Example getJavaFlags_new : getJavaFlags Paint_new = 0.
Proof. reflexivity. Qed.

Example java_flags_0x1FF :
  getJavaFlags (setJavaFlags 0x1FF Paint_new) = 0x1FF.
Proof. reflexivity. Qed.

Example java_flags_all_ones :
  getJavaFlags (setJavaFlags 0xFFFFFFFF Paint_new) = 0xDFF.
Proof. reflexivity. Qed.

Example setJavaFlags_edging :
  getEdging (mFont (setJavaFlags sAntiAliasFlag Paint_new)) = kAntiAlias /\
  getEdging (mFont (setJavaFlags sDitherFlag Paint_new)) = kAlias /\
  getFilterQuality (base (setJavaFlags sFilterBitmapFlag Paint_new))
    = kLow_SkFilterQuality.
Proof. repeat split. Qed.

(** C9, as stated: the flags word 0x200 (no native counterpart) does not
    survive [setJavaFlags] followed by [getJavaFlags]; it comes back as 0. *)
Lemma java_flags_roundtrip_fails_0x200 :
  0 <= 0x200 < 2 ^ 32 /\
  getJavaFlags (setJavaFlags 0x200 Paint_new) = 0 /\
  getJavaFlags (setJavaFlags 0x200 Paint_new) <> 0x200.
Proof. vm_compute. split; [split; [discriminate | reflexivity]|]. split; [reflexivity | discriminate]. Qed.

(** C9, amended: for every flags word and every paint, [setJavaFlags]
    followed by [getJavaFlags] returns the word restricted to the eleven
    supported bits, [flags & 0xDFF]; a word with no other bit set comes
    back unchanged. *)
Theorem java_flags_roundtrip_masked (flags : Z) (p : Paint) :
  getJavaFlags (setJavaFlags flags p) = Z.land flags legacyFlagsMask /\
  (Z.land flags legacyFlagsMask = flags ->
   getJavaFlags (setJavaFlags flags p) = flags).
Proof.
  split.
  - apply getJavaFlags_setJavaFlags.
  - intros Hin. now rewrite getJavaFlags_setJavaFlags.
Qed.

Lemma Paint_eq_of_agree (a b : Paint) :
  agree_on_compared a b -> Paint_eq a b = true.
Proof.
  intros (Hb & Hf & Hl & Hls & Hws & Hs & Hid & Hv & Hh & Ht & Ha & Hst & Hu & Hk).
  unfold Paint_eq.
  rewrite Hb, Hf, Hl, Hls, Hws, Hs, Hid, Hv, Hh, Ht, Ha, Hst, Hu, Hk.
  rewrite SkPaint_eqb_refl, SkFont_eqb_refl, !ptr_eqb_refl, String.eqb_refl,
    !Z.eqb_refl, !Bool.eqb_reflx.
  destruct (mFamilyVariant b), (mAlign b); reflexivity.
Qed.

Lemma agree_with_mShader (a b : Paint) (s1 s2 : option (positive * Shader)) :
  agree_on_compared a b ->
  agree_on_compared (with_mShader s1 a) (with_mShader s2 b).
Proof. intros H. exact H. Qed.

(** C10: two paints that agree on all the state [operator==] compares are
    equal for [operator==] whatever their [mShader] members are: with the
    shaders they have, and with any two shaders put in their place. *)
Theorem Paint_eq_ignores_shader (a b : Paint) :
  agree_on_compared a b ->
  Paint_eq a b = true /\
  forall s1 s2 : option (positive * Shader),
    Paint_eq (with_mShader s1 a) (with_mShader s2 b) = true.
Proof.
  intros H. split.
  - now apply Paint_eq_of_agree.
  - intros s1 s2. apply Paint_eq_of_agree. now apply agree_with_mShader.
Qed.

(** C10 on two paints whose shaders are different objects. *)
Lemma Paint_eq_ignores_shader_witness :
  mShader paint_one <> mShader paint_two /\
  agree_on_compared paint_one paint_two /\
  Paint_eq paint_one paint_two = true.
Proof.
  assert (H : agree_on_compared paint_one paint_two)
    by (repeat split; reflexivity).
  split; [discriminate|]. split; [exact H|].
  exact (proj1 (Paint_eq_ignores_shader paint_one paint_two H)).
Defined.

(** ** The layout of the flag word *)

Lemma testbit_select (b : bool) (k j : Z) :
  0 <= k -> 0 <= j ->
  Z.testbit (if b then 2 ^ k else 0) j = b && (k =? j).
Proof.
  intros Hk Hj. destruct b; simpl.
  - now apply Z.pow2_bits_eqb.
  - apply Z.bits_0.
Qed.

Lemma lor_if (c : bool) (x y : Z) :
  (if c then Z.lor x y else x) = Z.lor x (if c then y else 0).
Proof. destruct c; [reflexivity | now rewrite Z.lor_0_r]. Qed.

(** Bit [j] of the word [getJavaFlags] builds, read off the members. *)
Lemma getJavaFlags_testbit (p : Paint) (j : Z) :
  0 <= j ->
  Z.testbit (getJavaFlags p) j =
    (isAntiAlias (base p) && (0 =? j))
    || (isDither (base p) && (2 =? j))
    || (negb (SkFilterQuality_eqb (getFilterQuality (base p))
                                   kNone_SkFilterQuality) && (1 =? j))
    || ((isEmbolden (mFont p) && (5 =? j))
        || (isLinearMetrics (mFont p) && (6 =? j))
        || (isSubpixel (mFont p) && (7 =? j))
        || (isEmbeddedBitmaps (mFont p) && (10 =? j))
        || (isForceAutoHinting (mFont p) && (11 =? j)))
    || (mStrikeThru p && (4 =? j))
    || (mUnderline p && (3 =? j))
    || (mDevKern p && (8 =? j)).
Proof.
  intros Hj. unfold getJavaFlags, paintToLegacyFlags, fontToLegacyFlags.
  rewrite lor_if.
  change sAntiAliasFlag with (2 ^ 0). change sDitherFlag with (2 ^ 2).
  change sFilterBitmapFlag with (2 ^ 1).
  change sFakeBoldFlag with (2 ^ 5). change sLinearMetrics with (2 ^ 6).
  change sSubpixelMetrics with (2 ^ 7). change sEmbeddedBitmaps with (2 ^ 10).
  change sForceAutoHinting with (2 ^ 11).
  change sStrikeThruFlag with (2 ^ 4). change sUnderlineFlag with (2 ^ 3).
  change sDevKernFlag with (2 ^ 8).
  rewrite !neg_bool_and_select by lia.
  rewrite !Z.lor_spec, !testbit_select, Z.bits_0 by lia.
  reflexivity.
Qed.

Lemma neg_bool_and_range (b : bool) (k : Z) :
  0 <= k < 32 ->
  Z.testbit legacyFlagsMask k = true ->
  Z.land (neg_bool_and b (2 ^ k)) legacyFlagsMask = neg_bool_and b (2 ^ k).
Proof.
  intros Hk Hm. rewrite neg_bool_and_select by assumption.
  destruct b; [|reflexivity].
  rewrite Z.land_comm, land_pow2 by lia. now rewrite Hm.
Qed.

Lemma getJavaFlags_in_mask (p : Paint) :
  Z.land (getJavaFlags p) legacyFlagsMask = getJavaFlags p.
Proof.
  unfold getJavaFlags, paintToLegacyFlags, fontToLegacyFlags.
  rewrite lor_if.
  change sAntiAliasFlag with (2 ^ 0). change sDitherFlag with (2 ^ 2).
  change sFilterBitmapFlag with (2 ^ 1).
  change sFakeBoldFlag with (2 ^ 5). change sLinearMetrics with (2 ^ 6).
  change sSubpixelMetrics with (2 ^ 7). change sEmbeddedBitmaps with (2 ^ 10).
  change sForceAutoHinting with (2 ^ 11).
  change sStrikeThruFlag with (2 ^ 4). change sUnderlineFlag with (2 ^ 3).
  change sDevKernFlag with (2 ^ 8).
  rewrite !Z.land_lor_distr_l.
  rewrite !neg_bool_and_range by (try lia; reflexivity).
  destruct (negb (SkFilterQuality_eqb (getFilterQuality (base p))
                                      kNone_SkFilterQuality)); reflexivity.
Qed.

(** Reading one flag of the word [getJavaFlags] builds. *)
Ltac read_flag k :=
  change (has_flag ?w _) with (has_flag w (2 ^ k));
  rewrite has_flag_pow2, getJavaFlags_testbit by lia;
  cbn [Z.eqb Pos.eqb];
  rewrite ?andb_false_r, ?andb_true_r, ?orb_false_r, ?orb_false_l;
  reflexivity.

(** X1: the word [getJavaFlags] returns has each of the eleven flags set
    exactly when the member it stands for says so (the filter flag when
    the filter quality is not [kNone_SkFilterQuality]); it has no other
    bit set and fits in twelve bits. *)
Theorem getJavaFlags_layout (p : Paint) :
  has_flag (getJavaFlags p) sAntiAliasFlag = isAntiAlias (base p) /\
  has_flag (getJavaFlags p) sFilterBitmapFlag
    = negb (SkFilterQuality_eqb (getFilterQuality (base p)) kNone_SkFilterQuality) /\
  has_flag (getJavaFlags p) sDitherFlag = isDither (base p) /\
  has_flag (getJavaFlags p) sUnderlineFlag = mUnderline p /\
  has_flag (getJavaFlags p) sStrikeThruFlag = mStrikeThru p /\
  has_flag (getJavaFlags p) sFakeBoldFlag = isEmbolden (mFont p) /\
  has_flag (getJavaFlags p) sLinearMetrics = isLinearMetrics (mFont p) /\
  has_flag (getJavaFlags p) sSubpixelMetrics = isSubpixel (mFont p) /\
  has_flag (getJavaFlags p) sDevKernFlag = mDevKern p /\
  has_flag (getJavaFlags p) sEmbeddedBitmaps = isEmbeddedBitmaps (mFont p) /\
  has_flag (getJavaFlags p) sForceAutoHinting = isForceAutoHinting (mFont p) /\
  Z.land (getJavaFlags p) legacyFlagsMask = getJavaFlags p /\
  0 <= getJavaFlags p < 2 ^ 12.
Proof.
  split; [read_flag 0|]. split; [read_flag 1|]. split; [read_flag 2|].
  split; [read_flag 3|]. split; [read_flag 4|]. split; [read_flag 5|].
  split; [read_flag 6|]. split; [read_flag 7|]. split; [read_flag 8|].
  split; [read_flag 10|]. split; [read_flag 11|].
  split; [apply getJavaFlags_in_mask|].
  assert (H12 : Z.land (getJavaFlags p) (Z.ones 12) = getJavaFlags p).
  { rewrite <- (getJavaFlags_in_mask p) at 2.
    rewrite <- (getJavaFlags_in_mask p) at 1.
    now rewrite <- Z.land_assoc. }
  rewrite Z.land_ones in H12 by lia. rewrite <- H12.
  apply Z.mod_pos_bound. lia.
Qed.

(** ** What [setJavaFlags] writes *)

(** The paint [setJavaFlags] leaves, member by member. *)
Lemma setJavaFlags_members (flags : Z) (p : Paint) :
  setJavaFlags flags p =
    mkPaint
      (mkSkPaint (Z.testbit flags 0) (Z.testbit flags 2)
         (if Z.testbit flags 1 then kLow_SkFilterQuality
          else kNone_SkFilterQuality)
         (getShader (base p)) (getImageFilter (base p)))
      (mkSkFont (Z.testbit flags 5) (Z.testbit flags 6) (Z.testbit flags 7)
         (Z.testbit flags 10) (Z.testbit flags 11)
         (if Z.testbit flags 0 then kAntiAlias else kAlias))
      (mLooper p) (mLetterSpacing p) (mWordSpacing p) (mFontFeatureSettings p)
      (mMinikinLocaleListId p) (mFamilyVariant p) (mHyphenEdit p) (mTypeface p)
      (mAlign p) (Z.testbit flags 4) (Z.testbit flags 3) (Z.testbit flags 8)
      (mShader p).
Proof.
  unfold setJavaFlags, applyLegacyFlagsToPaint, applyLegacyFlagsToFont.
  change sAntiAliasFlag with (2 ^ 0). change sDitherFlag with (2 ^ 2).
  change sFilterBitmapFlag with (2 ^ 1).
  change sFakeBoldFlag with (2 ^ 5). change sLinearMetrics with (2 ^ 6).
  change sSubpixelMetrics with (2 ^ 7). change sEmbeddedBitmaps with (2 ^ 10).
  change sForceAutoHinting with (2 ^ 11).
  change sStrikeThruFlag with (2 ^ 4). change sUnderlineFlag with (2 ^ 3).
  change sDevKernFlag with (2 ^ 8).
  rewrite !has_flag_pow2 by lia.
  destruct (Z.testbit flags 0), (Z.testbit flags 1); reflexivity.
Qed.

(** X2: [setJavaFlags] decodes bit 0 into the paint's anti-aliasing and
    the font's edging, bit 1 into the filter quality (low or none), bit 2
    into dither, bits 3 and 4 into underline and strike-through, bits 5, 6,
    7, 10 and 11 into the font's embolden, linear-metrics, subpixel,
    embedded-bitmaps and force-auto-hinting settings, and bit 8 into
    [mDevKern]. *)
Theorem setJavaFlags_layout (flags : Z) (p : Paint) :
  let q := setJavaFlags flags p in
  isAntiAlias (base q) = Z.testbit flags 0 /\
  getEdging (mFont q) = (if Z.testbit flags 0 then kAntiAlias else kAlias) /\
  getFilterQuality (base q)
    = (if Z.testbit flags 1 then kLow_SkFilterQuality
       else kNone_SkFilterQuality) /\
  isDither (base q) = Z.testbit flags 2 /\
  mUnderline q = Z.testbit flags 3 /\
  mStrikeThru q = Z.testbit flags 4 /\
  isEmbolden (mFont q) = Z.testbit flags 5 /\
  isLinearMetrics (mFont q) = Z.testbit flags 6 /\
  isSubpixel (mFont q) = Z.testbit flags 7 /\
  mDevKern q = Z.testbit flags 8 /\
  isEmbeddedBitmaps (mFont q) = Z.testbit flags 10 /\
  isForceAutoHinting (mFont q) = Z.testbit flags 11.
Proof. cbv zeta. rewrite setJavaFlags_members. repeat split. Qed.

Lemma testbit_in_mask (flags k : Z) :
  0 <= k -> Z.testbit legacyFlagsMask k = true ->
  Z.testbit (Z.land flags legacyFlagsMask) k = Z.testbit flags k.
Proof. intros Hk Hm. now rewrite Z.land_spec, Hm, andb_true_r. Qed.

(** X3: [setJavaFlags] reads only the eleven supported bits of its
    argument, and a second [setJavaFlags] overwrites all that a first one
    wrote. *)
Theorem setJavaFlags_overwrites (f1 f2 : Z) (p : Paint) :
  setJavaFlags (Z.land f2 legacyFlagsMask) p = setJavaFlags f2 p /\
  setJavaFlags f2 (setJavaFlags f1 p) = setJavaFlags f2 p.
Proof.
  split.
  - rewrite !setJavaFlags_members.
    rewrite !testbit_in_mask by (try lia; reflexivity). reflexivity.
  - rewrite !setJavaFlags_members. reflexivity.
Qed.

Lemma getJavaFlags_bit (p : Paint) :
  Z.testbit (getJavaFlags p) 0 = isAntiAlias (base p) /\
  Z.testbit (getJavaFlags p) 1
    = negb (SkFilterQuality_eqb (getFilterQuality (base p)) kNone_SkFilterQuality) /\
  Z.testbit (getJavaFlags p) 2 = isDither (base p) /\
  Z.testbit (getJavaFlags p) 3 = mUnderline p /\
  Z.testbit (getJavaFlags p) 4 = mStrikeThru p /\
  Z.testbit (getJavaFlags p) 5 = isEmbolden (mFont p) /\
  Z.testbit (getJavaFlags p) 6 = isLinearMetrics (mFont p) /\
  Z.testbit (getJavaFlags p) 7 = isSubpixel (mFont p) /\
  Z.testbit (getJavaFlags p) 8 = mDevKern p /\
  Z.testbit (getJavaFlags p) 10 = isEmbeddedBitmaps (mFont p) /\
  Z.testbit (getJavaFlags p) 11 = isForceAutoHinting (mFont p).
Proof.
  repeat split; rewrite getJavaFlags_testbit by lia; cbn [Z.eqb Pos.eqb];
    rewrite ?andb_false_r, ?andb_true_r, ?orb_false_r, ?orb_false_l;
    reflexivity.
Qed.

(** X4: a paint whose font edging agrees with its anti-aliasing and whose
    filter quality is none or low is left unchanged by writing back the
    flags it reports. *)
Theorem setJavaFlags_getJavaFlags (p : Paint) :
  in_sync p -> flag_quality p -> setJavaFlags (getJavaFlags p) p = p.
Proof.
  intros Hsync Hq. rewrite setJavaFlags_members.
  destruct (getJavaFlags_bit p)
    as (-> & -> & -> & -> & -> & -> & -> & -> & -> & -> & ->).
  unfold in_sync, flag_quality in *.
  destruct p as [[aa di q sh imf] [bo li su em au ed] lo ls ws fs id va hy ty al
                 st un dk ms].
  cbn in *. subst ed. destruct Hq as [-> | ->]; reflexivity.
Qed.

(** X4 on a new paint with anti-aliasing switched on. *)
Lemma setJavaFlags_getJavaFlags_witness :
  setJavaFlags (getJavaFlags (setAntiAlias true Paint_new))
               (setAntiAlias true Paint_new)
  = setAntiAlias true Paint_new.
Proof.
  apply setJavaFlags_getJavaFlags.
  - reflexivity.
  - left. reflexivity.
Defined.

(** Medium filtering is reported as the filter flag and written back as
    low. *)
Example setJavaFlags_getJavaFlags_medium :
  getFilterQuality
    (base (setJavaFlags (getJavaFlags paint_medium) paint_medium))
  = kLow_SkFilterQuality.
Proof. reflexivity. Qed.

(** X5: on a plain [SkPaint], [SetSkPaintJavaFlags] followed by
    [GetSkPaintJavaFlags] returns the three paint bits of the word,
    [flags & 0x07], and leaves the shader and the image filter alone. *)
Theorem SkPaint_java_flags (flags : Z) (paint : SkPaint) :
  GetSkPaintJavaFlags (SetSkPaintJavaFlags paint flags) = Z.land flags 0x07 /\
  getShader (SetSkPaintJavaFlags paint flags) = getShader paint /\
  getImageFilter (SetSkPaintJavaFlags paint flags) = getImageFilter paint.
Proof.
  unfold GetSkPaintJavaFlags, SetSkPaintJavaFlags. split.
  - rewrite paintToLegacyFlags_apply, <- !Z.land_lor_distr_r. reflexivity.
  - unfold applyLegacyFlagsToPaint.
    destruct (has_flag flags sFilterBitmapFlag); split; reflexivity.
Qed.

(** X6: [setJavaFlags] and [setAntiAlias] leave the shader and image
    filter of the base, the looper, the spacings, the font-feature
    settings, the locale list, the family variant, the hyphen edit, the
    typeface, the alignment and [mShader] as they are. *)
Theorem flags_frame (flags : Z) (aa : bool) (p : Paint) :
  beyond_flags (setJavaFlags flags p) = beyond_flags p /\
  beyond_flags (setAntiAlias aa p) = beyond_flags p.
Proof. rewrite setJavaFlags_members. split; reflexivity. Qed.

(** X7: the constructor, [reset], [setAntiAlias] and [setJavaFlags] each
    leave the font edging in agreement with the paint's anti-aliasing, and
    the copy constructor, [operator=] and [setShader] keep the agreement. *)
Theorem in_sync_kept :
  in_sync Paint_new /\
  (forall p, in_sync (reset p)) /\
  (forall aa p, in_sync (setAntiAlias aa p)) /\
  (forall flags p, in_sync (setJavaFlags flags p)) /\
  (forall p, in_sync p -> in_sync (Paint_copy p)) /\
  (forall other this, in_sync other -> in_sync (Paint_assign other this)) /\
  (forall shader p, in_sync p -> in_sync (setShader shader p)).
Proof.
  split; [reflexivity|]. split; [reflexivity|].
  split; [intros [|] p; reflexivity|].
  split.
  { intros flags p. rewrite setJavaFlags_members. reflexivity. }
  split; [intros p H; exact H|]. split; [intros other this H; exact H|].
  intros shader p H. unfold in_sync, setShader in *.
  destruct shader as [[a sh]|]; [destruct (asSkShader sh)|]; exact H.
Qed.

(** X8: [setAntiAlias(aa)] changes the reported flag word in bit 0 only,
    which becomes [aa]. *)
Theorem setAntiAlias_flag (aa : bool) (p : Paint) :
  getJavaFlags (setAntiAlias aa p)
  = Z.lor (Z.b2z aa) (Z.land (getJavaFlags p) (Z.lnot sAntiAliasFlag)).
Proof.
  apply Z.bits_inj'. intros j Hj.
  rewrite Z.lor_spec, Z.land_spec, Z.lnot_spec by assumption.
  rewrite !getJavaFlags_testbit by assumption.
  cbn [setAntiAlias base mFont mStrikeThru mUnderline mDevKern with_base
       with_mFont isAntiAlias isDither getFilterQuality SkPaint_setAntiAlias
       SkFont_setEdging isEmbolden isLinearMetrics isSubpixel
       isEmbeddedBitmaps isForceAutoHinting].
  change sAntiAliasFlag with (2 ^ 0). rewrite Z.pow2_bits_eqb by lia.
  destruct (Z.eqb_spec 0 j) as [<-|Hne].
  - rewrite Z.b2z_bit0. cbn [Z.eqb negb].
    rewrite ?andb_false_r, ?andb_true_r, ?orb_false_r, ?orb_false_l.
    reflexivity.
  - assert (Hb : Z.testbit (Z.b2z aa) j = false).
    { destruct aa; simpl; [|apply Z.bits_0].
      change 1 with (2 ^ 0). rewrite Z.pow2_bits_eqb by lia.
      now apply Z.eqb_neq. }
    rewrite Hb. cbn [negb orb]. rewrite !andb_false_r, !andb_true_r.
    reflexivity.
Qed.

(** X9: after [reset] the flag word is 0 and the base is a default
    [SkPaint], so that a shader installed by [setShader] is gone from the
    base while [mShader] still names it; the spacings and the other text
    settings stay as well.  [reset] twice is [reset] once. *)
Theorem reset_keeps_shader (shader : option (positive * Shader)) (p : Paint) :
  getJavaFlags (reset p) = 0 /\
  base (reset p) = SkPaint_default /\
  mShader (reset (setShader shader p)) = shader /\
  getShader (base (reset (setShader shader p))) = None /\
  getImageFilter (base (reset (setShader shader p))) = None /\
  (mLetterSpacing (reset p), mWordSpacing (reset p),
   mFontFeatureSettings (reset p), mMinikinLocaleListId (reset p),
   mFamilyVariant (reset p), mHyphenEdit (reset p), mTypeface (reset p),
   mAlign (reset p))
  = (mLetterSpacing p, mWordSpacing p, mFontFeatureSettings p,
     mMinikinLocaleListId p, mFamilyVariant p, mHyphenEdit p, mTypeface p,
     mAlign p) /\
  reset (reset p) = reset p.
Proof. repeat split. Qed.

(** X10: [setShader] stores its argument in [mShader] and fills at most
    one of the two slots of the base: the [SkShader] slot when the shader
    offers an [SkShader], otherwise the image-filter slot with what the
    shader offers as an image filter, and neither for a null shader.  It
    overwrites what an earlier [setShader] did and does not change the
    flag word. *)
Theorem setShader_slots (s1 s2 : option (positive * Shader)) (p : Paint) :
  mShader (setShader s2 p) = s2 /\
  (getShader (base (setShader s2 p)) = None \/
   getImageFilter (base (setShader s2 p)) = None) /\
  getShader (base (setShader s2 p))
    = match s2 with Some (_, sh) => asSkShader sh | None => None end /\
  getImageFilter (base (setShader s2 p))
    = match s2 with
      | Some (_, sh) =>
          match asSkShader sh with Some _ => None | None => asSkImageFilter sh end
      | None => None
      end /\
  setShader s2 (setShader s1 p) = setShader s2 p /\
  getJavaFlags (setShader s2 p) = getJavaFlags p.
Proof.
  unfold setShader.
  destruct s2 as [[a2 sh2]|]; [destruct (asSkShader sh2) as [sk2|] eqn:H2|];
    (destruct s1 as [[a1 sh1]|]; [destruct (asSkShader sh1) as [sk1|]|]);
    cbn; rewrite ?H2; repeat split; auto.
Qed.

(** ** [operator==] *)

(** A float that is not a number equals none, itself included. *)
Lemma SFeqb_self_false (x : SpecFloat.spec_float) :
  SpecFloat.SFeqb x x = false -> x = SpecFloat.S754_nan.
Proof.
  unfold SpecFloat.SFeqb.
  destruct x as [sx | sx | | sx mx ex]; cbn [SpecFloat.SFcompare];
    try reflexivity.
  - discriminate.
  - destruct sx; discriminate.
  - rewrite Z.compare_refl, Pos.compare_cont_refl.
    destruct sx; discriminate.
Qed.

Lemma float_eqb_nan (x y : float) :
  PrimFloat.is_nan x = true ->
  PrimFloat.eqb x y = false /\ PrimFloat.eqb y x = false.
Proof.
  unfold PrimFloat.is_nan. intros Hx. apply negb_true_iff in Hx.
  rewrite FloatAxioms.eqb_spec in Hx. apply SFeqb_self_false in Hx.
  rewrite !FloatAxioms.eqb_spec, Hx. unfold SpecFloat.SFeqb.
  split; [reflexivity|]. now destruct (FloatOps.Prim2SF y).
Qed.

(** X12: a paint whose letter spacing or word spacing is not a number is
    equal, for [operator==], to no paint: not to another one on either
    side, not to the copy the copy constructor or [operator=] makes of it,
    and not to itself. *)
Theorem Paint_eq_nan (a b : Paint) :
  PrimFloat.is_nan (mLetterSpacing a) = true \/
  PrimFloat.is_nan (mWordSpacing a) = true ->
  Paint_eq a b = false /\ Paint_eq b a = false /\
  Paint_eq (Paint_copy a) a = false /\ Paint_eq (Paint_assign a b) a = false /\
  Paint_eq a a = false.
Proof.
  intros Hnan.
  assert (H : forall c, Paint_eq a c = false /\ Paint_eq c a = false).
  { intros c. unfold Paint_eq. destruct Hnan as [Hl | Hw].
    - destruct (float_eqb_nan _ (mLetterSpacing c) Hl) as [-> ->].
      now rewrite !andb_false_r.
    - destruct (float_eqb_nan _ (mWordSpacing c) Hw) as [-> ->].
      now rewrite !andb_false_r. }
  split; [apply H|]. split; [apply H|].
  split; [apply (H (Paint_copy a))|].
  split; [apply (H (Paint_assign a b)) | apply H].
Qed.

(** X12 on a paint whose letter spacing is not a number. *)
Lemma Paint_eq_nan_witness :
  Paint_eq paint_nan Paint_new = false /\
  Paint_eq (Paint_copy paint_nan) paint_nan = false /\
  Paint_eq paint_nan paint_nan = false.
Proof.
  destruct (Paint_eq_nan paint_nan Paint_new) as (H1 & _ & H2 & _ & H3).
  - left. reflexivity.
  - split; [exact H1|]. split; [exact H2 | exact H3].
Defined.

(** Equality of floats does not depend on the order of its operands. *)
Lemma SFeqb_sym (x y : SpecFloat.spec_float) :
  SpecFloat.SFeqb x y = SpecFloat.SFeqb y x.
Proof.
  unfold SpecFloat.SFeqb.
  destruct x as [sx| sx | | sx mx ex], y as [sy | sy | | sy my ey];
    cbn [SpecFloat.SFcompare]; try reflexivity;
    try (destruct sx; reflexivity); try (destruct sy; reflexivity);
    try (destruct sx, sy; reflexivity).
  rewrite (Z.compare_antisym ex ey), !Pos.compare_cont_spec.
  cbn [Pos.switch_Eq]. rewrite (Pos.compare_antisym mx my).
  destruct sx, sy; try reflexivity;
    destruct (ex ?= ey), (mx ?= my)%positive; reflexivity.
Qed.

Lemma float_eqb_sym (x y : float) : PrimFloat.eqb x y = PrimFloat.eqb y x.
Proof. rewrite !FloatAxioms.eqb_spec. apply SFeqb_sym. Qed.

Lemma ptr_eqb_sym (p q : ptr) : ptr_eqb p q = ptr_eqb q p.
Proof.
  destruct p as [a|], q as [b|]; simpl; try reflexivity. apply Pos.eqb_sym.
Qed.

Lemma bool_eqb_sym (a b : bool) : Bool.eqb a b = Bool.eqb b a.
Proof. destruct a, b; reflexivity. Qed.

Lemma enum_eqb_sym (q q' : SkFilterQuality) (e e' : Edging)
    (v v' : FamilyVariant) (l l' : Align) :
  SkFilterQuality_eqb q q' = SkFilterQuality_eqb q' q /\
  Edging_eqb e e' = Edging_eqb e' e /\
  FamilyVariant_eqb v v' = FamilyVariant_eqb v' v /\
  Align_eqb l l' = Align_eqb l' l.
Proof.
  split; [now destruct q, q'|]. split; [now destruct e, e'|].
  split; [now destruct v, v' | now destruct l, l'].
Qed.

(** X13: [operator==] is symmetric. *)
Theorem Paint_eq_sym (a b : Paint) : Paint_eq a b = Paint_eq b a.
Proof.
  unfold Paint_eq, SkPaint_eqb, SkFont_eqb.
  rewrite (float_eqb_sym (mLetterSpacing a)), (float_eqb_sym (mWordSpacing a)).
  rewrite (String.eqb_sym (mFontFeatureSettings a)).
  rewrite (Z.eqb_sym (mMinikinLocaleListId a)), (Z.eqb_sym (mHyphenEdit a)).
  rewrite (ptr_eqb_sym (mLooper a)), (ptr_eqb_sym (mTypeface a)).
  rewrite (ptr_eqb_sym (getShader (base a))),
    (ptr_eqb_sym (getImageFilter (base a))).
  rewrite (bool_eqb_sym (isAntiAlias (base a))),
    (bool_eqb_sym (isDither (base a))),
    (bool_eqb_sym (isEmbolden (mFont a))),
    (bool_eqb_sym (isLinearMetrics (mFont a))),
    (bool_eqb_sym (isSubpixel (mFont a))),
    (bool_eqb_sym (isEmbeddedBitmaps (mFont a))),
    (bool_eqb_sym (isForceAutoHinting (mFont a))),
    (bool_eqb_sym (mStrikeThru a)), (bool_eqb_sym (mUnderline a)),
    (bool_eqb_sym (mDevKern a)).
  destruct (enum_eqb_sym (getFilterQuality (base a)) (getFilterQuality (base b))
              (getEdging (mFont a)) (getEdging (mFont b))
              (mFamilyVariant a) (mFamilyVariant b) (mAlign a) (mAlign b))
    as (-> & -> & -> & ->).
  reflexivity.
Qed.

End PaintFacts.

(** * Facts about the inline members of DeferredLayerUpdater.h *)

Module UpdaterFacts.
Import Updater.

Lemma setSize_reports (w h : Z) (u : DeferredLayerUpdater) :
  fst (setSize w h u) = true <-> (mWidth u, mHeight u) <> (w, h).
Proof.
  unfold setSize.
  destruct (Z.eqb_spec (mWidth u) w) as [Hw|Hw],
           (Z.eqb_spec (mHeight u) h) as [Hh|Hh]; simpl; split;
    try congruence; intros _; congruence.
Qed.

Lemma setBlend_reports (b : bool) (u : DeferredLayerUpdater) :
  fst (setBlend b u) = true <-> mBlend u <> b.
Proof.
  unfold setBlend. destruct b, (mBlend u); simpl; split; congruence.
Qed.

Lemma setSize_stores (w h : Z) (u : DeferredLayerUpdater) :
  getWidth (snd (setSize w h u)) = w /\ getHeight (snd (setSize w h u)) = h.
Proof.
  unfold setSize, getWidth, getHeight.
  destruct (Z.eqb_spec (mWidth u) w) as [Hw|Hw],
           (Z.eqb_spec (mHeight u) h) as [Hh|Hh]; simpl; auto.
Qed.

Lemma setBlend_stores (b : bool) (u : DeferredLayerUpdater) :
  mBlend (snd (setBlend b u)) = b.
Proof.
  unfold setBlend. destruct b, (mBlend u) eqn:Hb; simpl; congruence.
Qed.

Lemma do_call_reports (c : setter_call) (u : DeferredLayerUpdater) :
  fst (do_call c u) = true <-> differs c u.
Proof. destruct c; [apply setSize_reports | apply setBlend_reports]. Qed.

Lemma do_call_stores (c : setter_call) (u : DeferredLayerUpdater) :
  stores c (snd (do_call c u)).
Proof. destruct c; [apply setSize_stores | apply setBlend_stores]. Qed.

Example run_calls_returns :
  snd <$> fst (run_calls [SetSize 4 3; SetSize 4 3; SetSize 4 5;
                          SetBlend false; SetBlend true; SetBlend true]
                         updater_one)
  = [true; false; true; false; true; false].
Proof. reflexivity. Qed.

(** The log of a run pairs each call with the updater the previous calls
    left and with what the code returned there. *)
Lemma run_calls_cons (c : setter_call) (cs : list setter_call)
    (u : DeferredLayerUpdater) :
  run_calls (c :: cs) u =
    ((u, c, fst (do_call c u)) :: fst (run_calls cs (snd (do_call c u))),
     snd (run_calls cs (snd (do_call c u)))).
Proof.
  simpl. destruct (do_call c u) as [r u1]. simpl.
  now destruct (run_calls cs u1).
Qed.

Lemma run_calls_report (cs : list setter_call) (u : DeferredLayerUpdater) :
  Forall (fun e : DeferredLayerUpdater * setter_call * bool =>
            let '(pre, c, r) := e in
            (r = true <-> differs c pre) /\ r = fst (do_call c pre))
         (fst (run_calls cs u)).
Proof.
  revert u. induction cs as [|c cs IH]; intros u.
  - constructor.
  - rewrite run_calls_cons. cbn [fst]. constructor.
    + split; [apply do_call_reports | reflexivity].
    + apply IH.
Qed.

Lemma run_calls_length (cs : list setter_call) (u : DeferredLayerUpdater) :
  length (fst (run_calls cs u)) = length cs.
Proof.
  revert u. induction cs as [|c cs IH]; intros u; [reflexivity|].
  rewrite run_calls_cons. cbn [fst length]. now rewrite IH.
Qed.

(** C5: in every sequence of [setSize] and [setBlend] calls, each call
    returns true exactly when its argument differs from the value stored
    when it is made (for [setSize], the width/height pair), and leaves its
    argument stored; so either setter, called twice with a value that
    differs from the stored one, returns true and then false. *)
Theorem setters_report_change :
  (forall (cs : list setter_call) (u : DeferredLayerUpdater),
     length (fst (run_calls cs u)) = length cs /\
     Forall (fun e : DeferredLayerUpdater * setter_call * bool =>
               let '(pre, c, r) := e in
               (r = true <-> differs c pre) /\
               r = fst (do_call c pre) /\
               stores c (snd (do_call c pre)))
            (fst (run_calls cs u))) /\
  (forall (w h : Z) (u : DeferredLayerUpdater),
     (mWidth u, mHeight u) <> (w, h) ->
     fst (run_calls [SetSize w h; SetSize w h] u)
       = [(u, SetSize w h, true); (snd (setSize w h u), SetSize w h, false)]) /\
  (forall (b : bool) (u : DeferredLayerUpdater),
     mBlend u <> b ->
     fst (run_calls [SetBlend b; SetBlend b] u)
       = [(u, SetBlend b, true); (snd (setBlend b u), SetBlend b, false)]).
Proof.
  split; [|split].
  - intros cs u. split; [apply run_calls_length|].
    eapply Forall_impl; [apply run_calls_report|].
    intros [[pre c] r] [Hr Heq]. split; [exact Hr|]. split; [exact Heq|].
    apply do_call_stores.
  - intros w h u Hne. rewrite !run_calls_cons. cbn [fst snd run_calls do_call].
    apply setSize_reports in Hne as Hfirst. rewrite Hfirst.
    destruct (setSize_stores w h u) as [Hw Hh].
    destruct (fst (setSize w h (snd (setSize w h u)))) eqn:Hsecond; [|reflexivity].
    apply setSize_reports in Hsecond. exfalso. apply Hsecond.
    unfold getWidth, getHeight in Hw, Hh. now rewrite Hw, Hh.
  - intros b u Hne. rewrite !run_calls_cons. cbn [fst snd run_calls do_call].
    apply setBlend_reports in Hne as Hfirst. rewrite Hfirst.
    destruct (fst (setBlend b (snd (setBlend b u)))) eqn:Hsecond; [|reflexivity].
    apply setBlend_reports in Hsecond. exfalso. apply Hsecond.
    apply setBlend_stores.
Qed.

(** C8: [setSize] changes no member other than [mWidth] and [mHeight], and
    [setBlend] no member other than [mBlend], for every prior state and
    every argument; neither takes or returns anything but the updater and
    the flag. *)
Theorem setters_frame (w h : Z) (b : bool) (u : DeferredLayerUpdater) :
  all_but_size (snd (setSize w h u)) = all_but_size u /\
  all_but_blend (snd (setBlend b u)) = all_but_blend u.
Proof.
  split.
  - unfold setSize.
    now destruct (negb (mWidth u =? w) || negb (mHeight u =? h)).
  - unfold setBlend. now destruct (negb (Bool.eqb b (mBlend u))).
Qed.

Lemma updateTexImage_twice (u : DeferredLayerUpdater) :
  updateTexImage (updateTexImage u) = updateTexImage u.
Proof. reflexivity. Qed.

Lemma updateTexImage_iter (n : nat) (u : DeferredLayerUpdater) :
  Nat.iter (S n) updateTexImage u = updateTexImage u.
Proof.
  induction n as [|n IH]; [reflexivity|].
  change (Nat.iter (S (S n)) updateTexImage u)
    with (updateTexImage (Nat.iter (S n) updateTexImage u)).
  rewrite IH. apply updateTexImage_twice.
Qed.

(** C7: any number (at least one) of successive [updateTexImage] calls
    leaves the updater as a single call does: [mUpdateTexImage] is true and
    no other member has changed. *)
Theorem updateTexImage_idempotent (n : nat) (u : DeferredLayerUpdater) :
  Nat.iter (S n) updateTexImage u = updateTexImage u /\
  mUpdateTexImage (updateTexImage u) = true /\
  all_but_flag (updateTexImage u) = all_but_flag u.
Proof.
  split; [apply updateTexImage_iter | split; reflexivity].
Qed.

Lemma delete_owned (u : DeferredLayerUpdater) (h : MatrixStore) :
  owns_live u h ->
  delete_matrix (mTransform u) h
    = Some (mkMatrixStore (without (mTransform u) (live h)) (next_addr h)).
Proof.
  intros Hown. unfold delete_matrix, without.
  destruct (mTransform u) as [old|] eqn:Hold; [|now destruct h].
  destruct (Hown old Hold) as [m ->]. reflexivity.
Qed.

Lemma next_addr_free (h : MatrixStore) :
  store_ok h -> live h !! next_addr h = None.
Proof.
  intros Hok. destruct (live h !! next_addr h) eqn:Hl; [|reflexivity].
  assert (next_addr h < next_addr h)%positive by (apply Hok; eauto). lia.
Qed.

Lemma without_lookup_ne (p : ptr) (m : gmap positive SkMatrix) (x : positive) :
  p <> Some x -> without p m !! x = m !! x.
Proof.
  destruct p as [a|]; simpl; [|reflexivity].
  intros Hne. apply lookup_delete_ne. congruence.
Qed.

Lemma without_lookup_eq (a : positive) (m : gmap positive SkMatrix) :
  without (Some a) m !! a = None.
Proof. apply lookup_delete_eq. Qed.

Lemma without_lookup_None (p : ptr) (m : gmap positive SkMatrix) (x : positive) :
  m !! x = None -> without p m !! x = None.
Proof.
  intros Hx. destruct p as [a|]; simpl; [|exact Hx].
  destruct (decide (a = x)) as [->|Hne];
    [apply lookup_delete_eq | now rewrite lookup_delete_ne].
Qed.

(** [setTransform(nullptr)]. *)
Lemma setTransform_null (u : DeferredLayerUpdater) (h : MatrixStore) :
  owns_live u h ->
  setTransform None (u, h)
    = Some (with_mTransform None u,
            mkMatrixStore (without (mTransform u) (live h)) (next_addr h)).
Proof. intros Hown. unfold setTransform. now rewrite delete_owned. Qed.

(** [setTransform(m)] for a live matrix that is not the owned one. *)
Lemma setTransform_copy (a : positive) (m : SkMatrix)
    (u : DeferredLayerUpdater) (h : MatrixStore) :
  owns_live u h -> live h !! a = Some m -> mTransform u <> Some a ->
  setTransform (Some a) (u, h)
    = Some (with_mTransform (Some (next_addr h)) u,
            mkMatrixStore (<[next_addr h := m]> (without (mTransform u) (live h)))
                          (Pos.succ (next_addr h))).
Proof.
  intros Hown Ha Hne. unfold setTransform. rewrite delete_owned by assumption.
  cbn [live next_addr]. rewrite without_lookup_ne, Ha by assumption.
  reflexivity.
Qed.

(** [setTransform(getTransform())] with a transform set: the matrix is
    deleted before it is copied, and the read has no defined result. *)
Lemma setTransform_of_own (a : positive) (u : DeferredLayerUpdater)
    (h : MatrixStore) :
  owns_live u h -> getTransform u = Some a ->
  setTransform (getTransform u) (u, h) = None.
Proof.
  intros Hown Ha. unfold getTransform in *. unfold setTransform.
  rewrite delete_owned by assumption. rewrite Ha. cbn [live].
  now rewrite without_lookup_eq.
Qed.

(** C6: [setTransform(m)], for [m] null or a matrix of the caller's own,
    succeeds and replaces the owned matrix wholesale: the stored transform
    is null when [m] is null and otherwise a newly allocated copy of [*m];
    the matrix stored before is deleted; no other matrix and no other
    member changes.  A following [setTransform(nullptr)] leaves no
    transform and deletes the copy, so that the live matrices are those
    from before the two calls less the one the updater owned then. *)
Theorem setTransform_replaces (matrix : ptr) (u : DeferredLayerUpdater)
    (h : MatrixStore) :
  store_ok h -> owns_live u h -> caller_matrix matrix u h ->
  exists (u' : DeferredLayerUpdater) (h' : MatrixStore),
    setTransform matrix (u, h) = Some (u', h') /\
    match matrix with
    | Some a =>
        exists a', getTransform u' = Some a' /\
                   live h !! a' = None /\
                   live h' !! a' = live h !! a /\
                   live h' !! a = live h !! a
    | None => getTransform u' = None
    end /\
    (forall old, mTransform u = Some old -> live h' !! old = None) /\
    (forall x, mTransform u <> Some x -> getTransform u' <> Some x ->
               live h' !! x = live h !! x) /\
    all_but_transform u' = all_but_transform u /\
    store_ok h' /\ owns_live u' h' /\
    exists h'' : MatrixStore,
      setTransform None (u', h') = Some (with_mTransform None u, h'') /\
      live h'' = without (mTransform u) (live h).
Proof.
  intros Hok Hown Hcall.
  pose proof (next_addr_free h Hok) as Hfree.
  destruct matrix as [a|].
  - destruct (Hcall a eq_refl) as [[m Ha] Hne].
    assert (Hlt : (a < next_addr h)%positive) by (apply Hok; eauto).
    eexists _, _. split; [apply (setTransform_copy a m); assumption|].
    cbn [live next_addr getTransform mTransform with_mTransform].
    split; [|split; [|split; [|split; [|split; [|split]]]]].
    + exists (next_addr h). split; [reflexivity|]. split; [exact Hfree|].
      rewrite lookup_insert_eq, lookup_insert_ne by lia.
      now rewrite without_lookup_ne.
    + intros old Hold.
      assert ((old < next_addr h)%positive) by (apply Hok, Hown, Hold).
      rewrite lookup_insert_ne by lia. rewrite Hold. apply without_lookup_eq.
    + intros x Hx Hx'. rewrite lookup_insert_ne by congruence.
      now apply without_lookup_ne.
    + reflexivity.
    + intros x [mx Hx]. cbn [live next_addr] in *.
      destruct (decide (next_addr h = x)) as [<-|Hnx]; [lia|].
      rewrite lookup_insert_ne in Hx by assumption.
      assert (is_Some (live h !! x)).
      { destruct (live h !! x) eqn:Hl; [eauto|].
        now rewrite without_lookup_None in Hx. }
      assert ((x < next_addr h)%positive) by now apply Hok. lia.
    + intros x Hx. injection Hx as <-. cbn [live].
      rewrite lookup_insert_eq. eauto.
    + eexists. split.
      * rewrite setTransform_null.
        -- reflexivity.
        -- intros x Hx. injection Hx as <-. cbn [live].
           rewrite lookup_insert_eq. eauto.
      * cbn [live mTransform with_mTransform without].
        apply delete_insert_id. now apply without_lookup_None.
  - eexists _, _. split; [now apply setTransform_null|].
    cbn [live next_addr getTransform mTransform with_mTransform].
    split; [reflexivity|].
    split; [|split; [|split; [|split; [|split]]]].
    + intros old Hold. rewrite Hold. apply without_lookup_eq.
    + intros x Hx _. now apply without_lookup_ne.
    + reflexivity.
    + intros x [mx Hx]. cbn [live next_addr] in *. apply Hok.
      destruct (live h !! x) eqn:Hl; [eauto|].
      now rewrite without_lookup_None in Hx.
    + intros x Hx. discriminate.
    + eexists. split.
      * rewrite setTransform_null; [reflexivity|]. intros x Hx. discriminate.
      * reflexivity.
Qed.

(** C6 on an updater that owns the matrix at address 1, given the caller's
    matrix at address 2: the copy is made at address 3, the matrix at 1 is
    deleted, and [setTransform(nullptr)] then leaves only the caller's. *)
Lemma setTransform_replaces_witness :
  setTransform (Some 2%positive) (updater_one, store_two)
    = Some (with_mTransform (Some 3%positive) updater_one,
            mkMatrixStore (<[3%positive := scale_matrix]>
                             (delete 1%positive (live store_two))) 4%positive) /\
  exists (u' : DeferredLayerUpdater) (h' : MatrixStore),
    setTransform (Some 2%positive) (updater_one, store_two) = Some (u', h') /\
    live h' !! 1%positive = None /\
    exists h'' : MatrixStore,
      setTransform None (u', h') = Some (with_mTransform None updater_one, h'') /\
      live h'' = delete 1%positive (live store_two).
Proof.
  assert (Hok : store_ok store_two).
  { intros a [m Hm]. unfold store_two in *. cbn [live next_addr] in *.
    destruct (decide (a = 1%positive)) as [->|H1]; [lia|].
    destruct (decide (a = 2%positive)) as [->|H2]; [lia|].
    rewrite !lookup_insert_ne in Hm by congruence. discriminate. }
  assert (Hown : owns_live updater_one store_two).
  { intros a Ha. injection Ha as <-. exists identity_matrix. reflexivity. }
  assert (Hcall : caller_matrix (Some 2%positive) updater_one store_two).
  { intros a Ha. injection Ha as <-. split; [|discriminate].
    exists scale_matrix. reflexivity. }
  split; [reflexivity|].
  destruct (setTransform_replaces (Some 2%positive) updater_one store_two
              Hok Hown Hcall)
    as (u' & h' & Hset & _ & Hold & _ & _ & _ & _ & h'' & Hnull & Hlive).
  exists u', h'. split; [exact Hset|]. split; [now apply Hold|].
  exists h''. split; [exact Hnull | exact Hlive].
Defined.

(** ** The setters together *)

(** X14: [setSize], [setBlend] and [updateTexImage] do not depend on one
    another: in either order they leave the same updater, and what
    [setSize] or [setBlend] returns is not changed by having called one of
    the other two first. *)
Theorem setters_commute (w h : Z) (b : bool) (u : DeferredLayerUpdater) :
  snd (setBlend b (snd (setSize w h u))) = snd (setSize w h (snd (setBlend b u))) /\
  fst (setBlend b (snd (setSize w h u))) = fst (setBlend b u) /\
  fst (setSize w h (snd (setBlend b u))) = fst (setSize w h u) /\
  snd (setSize w h (updateTexImage u)) = updateTexImage (snd (setSize w h u)) /\
  fst (setSize w h (updateTexImage u)) = fst (setSize w h u) /\
  snd (setBlend b (updateTexImage u)) = updateTexImage (snd (setBlend b u)) /\
  fst (setBlend b (updateTexImage u)) = fst (setBlend b u).
Proof.
  unfold setSize, setBlend, updateTexImage.
  cbn [mWidth mHeight mBlend with_mUpdateTexImage].
  destruct (negb (mWidth u =? w) || negb (mHeight u =? h)) eqn:Hs,
           (negb (Bool.eqb b (mBlend u))) eqn:Hb;
    cbn [fst snd mWidth mHeight mBlend with_size with_mBlend];
    rewrite ?Hs, ?Hb; repeat split.
Qed.

(** ** Sequences of [setTransform] *)

(** One call, seen from the caller's matrices: they stay live and
    unchanged, and none of them becomes the updater's. *)
Lemma setTransform_step (matrix : ptr) (u : DeferredLayerUpdater)
    (h : MatrixStore) :
  store_ok h -> owns_live u h -> caller_matrix matrix u h ->
  exists (u' : DeferredLayerUpdater) (h' : MatrixStore),
    setTransform matrix (u, h) = Some (u', h') /\
    without (mTransform u') (live h') = without (mTransform u) (live h) /\
    store_ok h' /\ owns_live u' h' /\
    all_but_transform u' = all_but_transform u /\
    (forall a, is_Some (live h !! a) -> mTransform u <> Some a ->
       mTransform u' <> Some a /\ live h' !! a = live h !! a) /\
    match matrix with
    | Some a => exists a', mTransform u' = Some a' /\ live h' !! a' = live h !! a
    | None => mTransform u' = None
    end.
Proof.
  intros Hok Hown Hcall.
  pose proof (next_addr_free h Hok) as Hfree.
  destruct matrix as [a|].
  - destruct (Hcall a eq_refl) as [[m Ha] Hne].
    eexists _, _. split; [apply (setTransform_copy a m); assumption|].
    cbn [live next_addr mTransform with_mTransform without].
    split; [apply delete_insert_id; now apply without_lookup_None|].
    split.
    { intros x [mx Hx]. cbn [live next_addr] in *.
      destruct (decide (next_addr h = x)) as [<-|Hnx]; [lia|].
      rewrite lookup_insert_ne in Hx by assumption.
      assert (is_Some (live h !! x)).
      { destruct (live h !! x) eqn:Hl; [eauto|].
        now rewrite without_lookup_None in Hx. }
      assert ((x < next_addr h)%positive) by now apply Hok. lia. }
    split.
    { intros x Hx. injection Hx as <-. cbn [live].
      rewrite lookup_insert_eq. eauto. }
    split; [reflexivity|]. split.
    { intros x Hx Hnx.
      assert ((x < next_addr h)%positive) by now apply Hok.
      split; [intros E; injection E as E; lia|].
      rewrite lookup_insert_ne by lia. now apply without_lookup_ne. }
    exists (next_addr h). split; [reflexivity|].
    now rewrite lookup_insert_eq, Ha.
  - eexists _, _. split; [now apply setTransform_null|].
    cbn [live next_addr mTransform with_mTransform without].
    split; [reflexivity|]. split.
    { intros x [mx Hx]. cbn [live next_addr] in *. apply Hok.
      destruct (live h !! x) eqn:Hl; [eauto|].
      now rewrite without_lookup_None in Hx. }
    split; [intros x Hx; discriminate|]. split; [reflexivity|].
    split; [|reflexivity].
    intros x Hx Hnx. split; [discriminate | now apply without_lookup_ne].
Qed.

(** X15: any sequence of [setTransform] calls whose arguments are null
    or matrices of the caller's succeeds and leaks nothing: at the end the
    live matrices other than the one the updater owns are those from
    before the sequence other than the one it owned then.  The updater
    ends with a copy of the last argument (no transform if that was
    null), and no member other than [mTransform] has changed. *)
Theorem setTransform_sequence (ms : list ptr) (u : DeferredLayerUpdater)
    (h : MatrixStore) :
  store_ok h -> owns_live u h ->
  (forall a, In (Some a) ms ->
     is_Some (live h !! a) /\ mTransform u <> Some a) ->
  exists (u' : DeferredLayerUpdater) (h' : MatrixStore),
    run_transforms ms (u, h) = Some (u', h') /\
    without (getTransform u') (live h') = without (getTransform u) (live h) /\
    store_ok h' /\ owns_live u' h' /\
    all_but_transform u' = all_but_transform u /\
    match last ms with
    | None => (u', h') = (u, h)
    | Some None => getTransform u' = None
    | Some (Some a) =>
        exists a', getTransform u' = Some a' /\ live h' !! a' = live h !! a
    end.
Proof.
  unfold getTransform. revert u h.
  induction ms as [|m ms IH]; intros u h Hok Hown Hms.
  - exists u, h. repeat split; assumption.
  - assert (Hcall : caller_matrix m u h).
    { intros a ->. apply Hms. now left. }
    destruct (setTransform_step m u h Hok Hown Hcall)
      as (u1 & h1 & Hset & Hrest & Hok1 & Hown1 & Hframe & Hkeep & Hlast).
    assert (Hms1 : forall a, In (Some a) ms ->
              is_Some (live h1 !! a) /\ mTransform u1 <> Some a).
    { intros a Ha. destruct (Hms a (or_intror Ha)) as [Hl Hn].
      destruct (Hkeep a Hl Hn) as [Hn1 Hl1]. rewrite Hl1. now split. }
    destruct (IH u1 h1 Hok1 Hown1 Hms1)
      as (u2 & h2 & Hrun & Hrest2 & Hok2 & Hown2 & Hframe2 & Hlast2).
    exists u2, h2. cbn [run_transforms]. rewrite Hset.
    split; [exact Hrun|]. split; [now rewrite Hrest2|].
    split; [exact Hok2|]. split; [exact Hown2|].
    split; [now rewrite Hframe2|].
    rewrite last_cons. destruct (last ms) as [[a|]|] eqn:Hl.
    + destruct Hlast2 as (a' & Ha' & Hcopy). exists a'. split; [exact Ha'|].
      rewrite Hcopy.
      assert (Hin : In (Some a) ms).
      { apply list_elem_of_In. apply last_Some_elem_of. exact Hl. }
      destruct (Hms a (or_intror Hin)) as [Hlive Hn].
      now apply Hkeep.
    + exact Hlast2.
    + injection Hlast2 as -> ->. exact Hlast.
Qed.

(** X15 on the updater that owns the matrix at address 1 and the caller's
    matrix at address 2: set, clear, set again. *)
Lemma setTransform_sequence_witness :
  exists (u' : DeferredLayerUpdater) (h' : MatrixStore),
    run_transforms [Some 2%positive; None; Some 2%positive]
                   (updater_one, store_two) = Some (u', h') /\
    without (getTransform u') (live h') = delete 1%positive (live store_two) /\
    exists a', getTransform u' = Some a' /\
               live h' !! a' = Some scale_matrix.
Proof.
  assert (Hok : store_ok store_two).
  { intros a [m Hm]. unfold store_two in *. cbn [live next_addr] in *.
    destruct (decide (a = 1%positive)) as [->|H1]; [lia|].
    destruct (decide (a = 2%positive)) as [->|H2]; [lia|].
    rewrite !lookup_insert_ne in Hm by congruence. discriminate. }
  assert (Hown : owns_live updater_one store_two).
  { intros a Ha. injection Ha as <-. exists identity_matrix. reflexivity. }
  destruct (setTransform_sequence [Some 2%positive; None; Some 2%positive]
              updater_one store_two Hok Hown)
    as (u' & h' & Hrun & Hrest & _ & _ & _ & Hlast).
  - intros a [Ha | [Ha | [Ha | []]]]; try discriminate;
      injection Ha as <-; (split; [eexists; reflexivity | discriminate]).
  - exists u', h'. split; [exact Hrun|]. split; [exact Hrest|]. exact Hlast.
Defined.

(** X16: with the matrix it owns live, [setTransform(m)] has no defined
    result exactly when [m] is non-null and either points to no live
    matrix or is the pointer the updater holds ([getTransform()]): that
    matrix is deleted before [*m] is read. *)
Theorem setTransform_undefined (matrix : ptr) (u : DeferredLayerUpdater)
    (h : MatrixStore) :
  owns_live u h ->
  (setTransform matrix (u, h) = None <->
   exists a, matrix = Some a /\
             (live h !! a = None \/ getTransform u = Some a)).
Proof.
  intros Hown. unfold setTransform, getTransform.
  rewrite delete_owned by assumption. cbn [live].
  destruct matrix as [a|].
  - destruct (decide (mTransform u = Some a)) as [He|Hne].
    + rewrite He, without_lookup_eq. split; [|reflexivity].
      intros _. exists a. auto.
    + rewrite without_lookup_ne by assumption.
      destruct (live h !! a) as [m|] eqn:Ha.
      * split; [discriminate|].
        intros (a0 & E & [Hn | Hown0]); injection E as <-; congruence.
      * split; [|reflexivity]. intros _. exists a. auto.
  - split; [discriminate|]. intros (a & E & _). discriminate.
Qed.

(** X16 on the updater that owns the matrix at address 1: handing it its
    own pointer has no defined result. *)
Lemma setTransform_undefined_witness :
  setTransform (getTransform updater_one) (updater_one, store_two) = None.
Proof.
  assert (Hown : owns_live updater_one store_two).
  { intros a Ha. injection Ha as <-. exists identity_matrix. reflexivity. }
  apply (proj2 (setTransform_undefined (getTransform updater_one)
                  updater_one store_two Hown)).
  exists 1%positive. split; [reflexivity | right; reflexivity].
Defined.

End UpdaterFacts.

(** * Facts about the modelled members *)

Module LifecycleFacts.
Import Updater Lifecycle.


Lemma events_since_app (w w' : World) (evs : list event) :
  trace w' = trace w ++ evs -> events_since w w' = evs.
Proof. intros H. unfold events_since. rewrite H. apply drop_app_length. Qed.

Lemma events_since_same (w : World) : events_since w w = [].
Proof. apply events_since_app. now rewrite app_nil_r. Qed.

(** ** [ImageSlot] *)

Lemma ImageSlot_clear_empty (context : ptr) (slot : ImageSlot) (w : World) :
  mTextureRelease slot = None -> ImageSlot_clear context (slot, w) = (slot, w).
Proof. intros H. unfold ImageSlot_clear. now rewrite H. Qed.

Lemma ImageSlot_clear_held (context : ptr) (slot : ImageSlot) (w : World)
    (h : positive) :
  mTextureRelease slot = Some h ->
  ImageSlot_clear context (slot, w)
    = (cleared slot,
       mkWorld (unref h (textures w)) (layers w) (next_handle w)
               (trace w ++ [HandleUnref h context])).
Proof. intros H. unfold ImageSlot_clear. now rewrite H. Qed.

Lemma ImageSlot_clear_leaves_null (context : ptr) (s : ImageSlot * World) :
  mTextureRelease (fst (ImageSlot_clear context s)) = None.
Proof.
  destruct s as [slot w]. unfold ImageSlot_clear.
  destruct (mTextureRelease slot) eqn:H; [reflexivity | exact H].
Qed.

Lemma releaseQueueOwnership_empty (context : ptr) (slot : ImageSlot) (w : World) :
  mTextureRelease slot = None ->
  ImageSlot_releaseQueueOwnership context (slot, w) = (slot, w).
Proof. intros H. unfold ImageSlot_releaseQueueOwnership. now rewrite H. Qed.






Lemma unref_other (h x : positive) (ts : gmap positive Texture) :
  x <> h -> unref h ts !! x = ts !! x.
Proof.
  intros Hne. unfold unref. destruct (ts !! h) as [t|]; [|reflexivity].
  destruct (tex_refs t) as [|[|n]];
    [apply lookup_delete_ne | apply lookup_delete_ne | apply lookup_insert_ne];
    congruence.
Qed.

Lemma unref_absent (h x : positive) (ts : gmap positive Texture) :
  ts !! x = None -> unref h ts !! x = None.
Proof.
  intros Hx. destruct (decide (x = h)) as [->|Hne].
  - unfold unref. now rewrite Hx.
  - now rewrite unref_other.
Qed.





(** ** Teardown *)

Lemma cleared_id (slot : ImageSlot) :
  mTextureRelease slot = None -> cleared slot = slot.
Proof. destruct slot as [d b t]. simpl. now intros ->. Qed.

Lemma handles_of_insert (slots : gmap Z ImageSlot) (k : Z) (slot : ImageSlot) :
  slots !! k = None ->
  handles_of (<[k := slot]> slots)
    ≡ₚ option_list (mTextureRelease slot) ++ handles_of slots.
Proof.
  intros Hk. unfold handles_of. rewrite map_to_list_insert by assumption.
  cbn [fmap list_fmap snd omap list_omap].
  destruct (mTextureRelease slot); reflexivity.
Qed.

(** Clearing the whole cache clears each entry once: the entries are the
    cleared ones, and the events are one unref per handle held. *)
Lemma clear_slots_spec (context : ptr) (slots : gmap Z ImageSlot) (w : World) :
  exists hs : list positive,
    hs ≡ₚ handles_of slots /\
    fst (clear_slots context (slots, w)) = cleared <$> slots /\
    layers (snd (clear_slots context (slots, w))) = layers w /\
    next_handle (snd (clear_slots context (slots, w))) = next_handle w /\
    trace (snd (clear_slots context (slots, w)))
      = trace w ++ unref_events context hs.
Proof.
  unfold clear_slots.
  apply (map_fold_weak_ind
    (fun (r : gmap Z ImageSlot * World) (m : gmap Z ImageSlot) =>
       exists hs : list positive,
         hs ≡ₚ handles_of m /\ fst r = cleared <$> m /\
         layers (snd r) = layers w /\ next_handle (snd r) = next_handle w /\
         trace (snd r) = trace w ++ unref_events context hs)).
  - exists []. unfold handles_of. rewrite map_to_list_empty, fmap_empty.
    cbn. now rewrite app_nil_r.
  - intros k slot m [acc w0] Hk (hs & Hperm & Hacc & Hl & Hn & Ht).
    cbn [fst snd] in *.
    destruct (mTextureRelease slot) as [h|] eqn:Hh.
    + rewrite (ImageSlot_clear_held _ _ _ h Hh). cbn [fst snd layers next_handle trace].
      exists (hs ++ [h]). split; [|split; [|split; [|split]]]; try assumption.
      * rewrite handles_of_insert by assumption. rewrite Hh. cbn [option_list].
        rewrite Hperm. now rewrite Permutation_app_comm.
      * now rewrite fmap_insert, Hacc.
      * rewrite Ht. unfold unref_events. now rewrite fmap_app, app_assoc.
    + rewrite ImageSlot_clear_empty by assumption. cbn [fst snd].
      exists hs. split; [|split; [|split; [|split]]]; try assumption.
      * rewrite handles_of_insert by assumption. now rewrite Hh.
      * now rewrite fmap_insert, Hacc, cleared_id.
Qed.

(** Clearing a cache whose entries hold no handle changes nothing. *)
Lemma clear_slots_nothing (context : ptr) (slots : gmap Z ImageSlot) (w : World) :
  (forall k slot, slots !! k = Some slot -> mTextureRelease slot = None) ->
  clear_slots context (slots, w) = (slots, w).
Proof.
  unfold clear_slots.
  apply (map_fold_weak_ind
    (fun (r : gmap Z ImageSlot * World) (m : gmap Z ImageSlot) =>
       (forall k slot, m !! k = Some slot -> mTextureRelease slot = None) ->
       r = (m, w))).
  - reflexivity.
  - intros k slot m r Hk IH Hall.
    rewrite IH.
    + cbn [fst snd]. rewrite ImageSlot_clear_empty; [reflexivity|].
      apply (Hall k). apply lookup_insert_eq.
    + intros k' slot' Hk'. apply (Hall k').
      rewrite lookup_insert_ne; [assumption|]. congruence.
Qed.

Lemma cleared_slots_hold_nothing (slots : gmap Z ImageSlot) (k : Z)
    (slot : ImageSlot) :
  (cleared <$> slots) !! k = Some slot -> mTextureRelease slot = None.
Proof.
  rewrite lookup_fmap. destruct (slots !! k); simpl; [|discriminate].
  intros E. injection E as <-. reflexivity.
Qed.

Lemma release_layer_trace (l : ptr) (w : World) :
  trace (release_layer l w) = trace w ++ layer_events l.
Proof. destruct l; simpl; [reflexivity | now rewrite app_nil_r]. Qed.

(** C2: [onContextDestroyed] followed by [destroyLayer].  The first call
    drops one reference per handle held by a cache entry and releases the
    render target if there is one; it leaves every entry without a handle
    and the updater without a render target.  The second call then
    releases nothing: it leaves updater and world as they are, so that
    over the two calls each handle reference is dropped once and the
    render target is released once. *)
Theorem teardown_after_context_loss (u : DeferredLayerUpdater) (w : World) :
  let s1 := onContextDestroyed (u, w) in
  let s2 := destroyLayer s1 in
  s2 = s1 /\
  events_since (snd s1) (snd s2) = [] /\
  mLayer (fst s1) = None /\
  (forall k slot,
     mImageSlots (fst s1) !! k = Some slot -> mTextureRelease slot = None) /\
  exists hs : list positive,
    hs ≡ₚ handles_of (mImageSlots u) /\
    events_since w (snd s2) = unref_events None hs ++ layer_events (mLayer u).
Proof.
  cbv zeta.
  destruct (clear_slots_spec None (mImageSlots u) w)
    as (hs & Hperm & Hslots & Hl & Hn & Ht).
  unfold onContextDestroyed.
  destruct (clear_slots None (mImageSlots u, w)) as [slots w1] eqn:Hc.
  cbn [fst snd] in *. subst slots.
  assert (Hsecond :
    destroyLayer (with_mLayer None (with_mImageSlots (cleared <$> mImageSlots u) u),
                  release_layer (mLayer u) w1)
    = (with_mLayer None (with_mImageSlots (cleared <$> mImageSlots u) u),
       release_layer (mLayer u) w1)).
  { unfold destroyLayer. cbn [mImageSlots mLayer mRenderState with_mLayer with_mImageSlots].
    rewrite clear_slots_nothing by apply cleared_slots_hold_nothing.
    reflexivity. }
  rewrite Hsecond. cbn [fst snd].
  split; [reflexivity|]. split; [apply events_since_same|].
  split; [reflexivity|].
  split; [intros k slot; apply cleared_slots_hold_nothing|].
  exists hs. split; [exact Hperm|].
  apply events_since_app. now rewrite release_layer_trace, Ht, app_assoc.
Qed.

(** ** Detaching the producer *)

(** An updater with no producer and no handle in its current entry is
    left as it is. *)
Lemma detach_settled (u : DeferredLayerUpdater) (w : World) :
  mSurfaceTexture u = None ->
  (forall slot, mImageSlots u !! mCurrentSlot u = Some slot ->
                mTextureRelease slot = None) ->
  detachSurfaceTexture (u, w) = (u, w).
Proof.
  intros Hsrc Hcur. unfold detachSurfaceTexture. rewrite Hsrc.
  cbn [release_source].
  destruct (mImageSlots u !! mCurrentSlot u) as [slot|] eqn:Hslot.
  - rewrite releaseQueueOwnership_empty, ImageSlot_clear_empty by now apply Hcur.
    rewrite insert_id by assumption.
    destruct u; cbn in *; now subst.
  - destruct u; cbn in *; now subst.
Qed.

Lemma release_source_trace (st : option ASurfaceTexture) (w : World) :
  trace (release_source st w) = trace w ++ source_events st.
Proof. destruct st; simpl; [reflexivity | now rewrite app_nil_r]. Qed.

(** What one call leaves behind. *)
Lemma detach_settles (u : DeferredLayerUpdater) (w : World) :
  mSurfaceTexture (fst (detachSurfaceTexture (u, w))) = None /\
  (forall slot,
     mImageSlots (fst (detachSurfaceTexture (u, w)))
       !! mCurrentSlot (fst (detachSurfaceTexture (u, w))) = Some slot ->
     mTextureRelease slot = None) /\
  trace (snd (detachSurfaceTexture (u, w)))
    = trace w ++ source_events (mSurfaceTexture u)
        ++ detach_events (Some (mRenderState u))
                         (mImageSlots u !! mCurrentSlot u).
Proof.
  unfold detachSurfaceTexture.
  destruct (mImageSlots u !! mCurrentSlot u) as [slot|] eqn:Hslot.
  - destruct (mTextureRelease slot) as [h|] eqn:Hh.
    + unfold ImageSlot_releaseQueueOwnership. rewrite Hh.
      rewrite (ImageSlot_clear_held _ _ _ h Hh).
      cbn [fst snd trace mSurfaceTexture mImageSlots mCurrentSlot
           with_mImageSlots with_mSurfaceTexture detach_events].
      split; [reflexivity|]. split.
      * intros slot'. rewrite lookup_insert_eq. intros E. now injection E as <-.
      * rewrite Hh, release_source_trace. now rewrite <- !app_assoc.
    + rewrite releaseQueueOwnership_empty, ImageSlot_clear_empty by assumption.
      cbn [fst snd trace mSurfaceTexture mImageSlots mCurrentSlot
           with_mImageSlots with_mSurfaceTexture detach_events].
      split; [reflexivity|]. split.
      * intros slot'. rewrite lookup_insert_eq. intros E. now injection E as <-.
      * rewrite Hh, release_source_trace. now rewrite app_nil_r.
  - cbn [fst snd mSurfaceTexture mImageSlots mCurrentSlot with_mSurfaceTexture
         detach_events].
    split; [reflexivity|]. split.
    + intros slot'. rewrite Hslot. discriminate.
    + now rewrite release_source_trace, app_nil_r.
Qed.

(** C4: [detachSurfaceTexture] twice in a row ends in the state one call
    ends in, world and event trace included: the second call releases
    nothing.  The first call releases the producer source if one is
    attached and, for a current entry that holds a handle, gives up queue
    ownership and drops the entry's reference, each once. *)
Theorem detachSurfaceTexture_idempotent (u : DeferredLayerUpdater) (w : World) :
  let s1 := detachSurfaceTexture (u, w) in
  detachSurfaceTexture s1 = s1 /\
  events_since (snd s1) (snd (detachSurfaceTexture s1)) = [] /\
  mSurfaceTexture (fst s1) = None /\
  events_since w (snd s1)
    = source_events (mSurfaceTexture u)
        ++ detach_events (Some (mRenderState u)) (mImageSlots u !! mCurrentSlot u).
Proof.
  cbv zeta. destruct (detach_settles u w) as (Hsrc & Hcur & Htrace).
  destruct (detachSurfaceTexture (u, w)) as [u1 w1] eqn:Hfirst.
  cbn [fst snd] in *.
  rewrite (detach_settled u1 w1 Hsrc Hcur). cbn [snd].
  split; [reflexivity|]. split; [apply events_since_same|].
  split; [exact Hsrc|]. now apply events_since_app.
Qed.

(** ** Latching a frame *)






(** The scenario of the design document: buffer 5 delivered to slot 0
    creates a handle; delivered again it is found in the cache; buffer 6 in
    the same slot has the old handle dropped and a new one created. *)
Example three_deliveries :
  trace (snd (render_pass (deliver (mkFrame 0 (Some 6%positive) 1)
           (render_pass (deliver (mkFrame 0 (Some 5%positive) 1)
              (render_pass (deliver (mkFrame 0 (Some 5%positive) 1)
                 (updater_idle, world_b5))))))))
  = [CacheResolve (Some 5%positive) 1; TextureCreate 2%positive 9%positive;
     CacheResolve (Some 5%positive) 1;
     CacheResolve (Some 6%positive) 1;
     HandleUnref 2%positive (Some 9%positive);
     TextureCreate 3%positive 9%positive].
Proof. vm_compute. reflexivity. Qed.

End LifecycleFacts.
